(** * TeleMsgRouter: the Gemini moderation adapter

    A shallow embedding of [src/services/gemini_service.py] (class
    [GeminiService]) and the properties of its three public operations:
    [analyze_message], [generate_unblock_question] and
    [generate_verification_challenge].

    Python values are modelled as follows.
    - [str] is a list of Unicode code points ([pystr]); literals of the
      source are written as UTF-8 text and decoded by [u].
    - JSON-like values (what [json.loads] returns and what the operations
      return) are the inductive type [pyval]; a [dict] is an association
      list in insertion order with unique keys.
    - an exception is a value of [exn]; a computation that may raise
      returns an [outcome].
    - the remote model, the image decoder and the random generator are
      the fields of a [World] and of the threaded [State]; every remote
      call is appended to the [calls] log of the state. *)

From Stdlib Require Import String Ascii.
From stdpp Require Import base numbers option list.

Set Warnings "-register-all".

Local Open Scope N_scope.

(** ** Text *)

Definition pystr := list N.

(** Decoding of a UTF-8 byte sequence into code points: how the text of
    the (UTF-8) source file becomes [str] literals. *)
Fixpoint utf8_decode (bs : list N) : pystr :=
  match bs with
  | [] => []
  | b0 :: r0 =>
    if b0 <? 128 then b0 :: utf8_decode r0
    else if b0 <? 224 then
      match r0 with
      | b1 :: r1 =>
        N.lor (N.shiftl (N.land b0 31) 6) (N.land b1 63) :: utf8_decode r1
      | _ => []
      end
    else if b0 <? 240 then
      match r0 with
      | b1 :: b2 :: r2 =>
        N.lor (N.shiftl (N.land b0 15) 12)
              (N.lor (N.shiftl (N.land b1 63) 6) (N.land b2 63))
          :: utf8_decode r2
      | _ => []
      end
    else
      match r0 with
      | b1 :: b2 :: b3 :: r3 =>
        N.lor (N.shiftl (N.land b0 7) 18)
              (N.lor (N.shiftl (N.land b1 63) 12)
                     (N.lor (N.shiftl (N.land b2 63) 6) (N.land b3 63)))
          :: utf8_decode r3
      | _ => []
      end
  end.

Definition u (s : string) : pystr :=
  utf8_decode (map N_of_ascii (list_ascii_of_string s)).

(** The double quote, which a literal of this file cannot hold. *)
Definition dq : pystr := [34].

Definition pystr_eqb (a b : pystr) : bool := bool_decide (a = b).

(** [str.join] *)
Fixpoint join (sep : pystr) (l : list pystr) : pystr :=
  match l with
  | [] => []
  | [x] => x
  | x :: rest => x ++ sep ++ join sep rest
  end.

(** [str.isspace] on one code point; the same set is the class [\s] of a
    [str] pattern in [re]. *)
Definition isspace (c : N) : bool :=
  ((9 <=? c) && (c <=? 13)) || ((28 <=? c) && (c <=? 32))
  || (c =? 133) || (c =? 160) || (c =? 5760)
  || ((8192 <=? c) && (c <=? 8202))
  || (c =? 8232) || (c =? 8233) || (c =? 8239) || (c =? 8287)
  || (c =? 12288).
Arguments isspace : simpl never.

Fixpoint lstrip (s : pystr) : pystr :=
  match s with
  | c :: r => if isspace c then lstrip r else s
  | [] => []
  end.

(** [str.rstrip()]: a code point is kept when it is not a whitespace or
    when something is kept after it. *)
Fixpoint rstrip (s : pystr) : pystr :=
  match s with
  | [] => []
  | c :: r =>
    match rstrip r with
    | [] => if isspace c then [] else [c]
    | r' => c :: r'
    end
  end.

(** [str.strip()] *)
Definition strip (s : pystr) : pystr := rstrip (lstrip s).

(** Length of the leading run of whitespace: what a greedy [\s*] takes. *)
Fixpoint ws_run (s : pystr) : nat :=
  match s with
  | c :: r => if isspace c then S (ws_run r) else O
  | [] => O
  end.

Fixpoint starts_with (p s : pystr) : bool :=
  match p, s with
  | [], _ => true
  | a :: p', b :: s' => (a =? b) && starts_with p' s'
  | _ :: _, [] => false
  end.

Definition fence : pystr := [96; 96; 96].
Definition fence_json : pystr := fence ++ u "json".

(** The pattern [```json\s*|\s*```] tried at the head of [s]: the length
    of the match, if there is one.  The first alternative is tried first;
    in the second one the greedy [\s*] has to take the whole run, since
    what follows a shorter run is a whitespace and not a backtick. *)
Definition match_at (s : pystr) : option nat :=
  if starts_with fence_json s
  then Some (length fence_json + ws_run (drop (length fence_json) s))%nat
  else let n := ws_run s in
       if starts_with fence (drop n s) then Some (n + length fence)%nat
       else None.

(** [re.sub(pattern, '', s)]: scanning from the left, every match that
    starts outside the previous one is deleted.  [skip] counts the code
    points of the current match that are still to be dropped. *)
Fixpoint re_sub_from (skip : nat) (s : pystr) : pystr :=
  match s with
  | [] => []
  | c :: rest =>
    match skip with
    | S k => re_sub_from k rest
    | O =>
      match match_at s with
      | Some (S k) => re_sub_from k rest
      | _ => c :: re_sub_from O rest
      end
    end
  end.

Definition re_sub_fences (s : pystr) : pystr := re_sub_from O s.

(** [re.sub(r'```json\s*|\s*```', '', text).strip()] *)
Definition clean_text (text : pystr) : pystr := strip (re_sub_fences text).

(** ** Exceptions *)

Inductive exn : Type :=
| ValueError
| JSONDecodeError
| RecursionError
| KeyError
| TypeError
| UnicodeEncodeError
| OtherException (name : string).

(** [isinstance(e, ValueError)]: [json.JSONDecodeError] and
    [UnicodeEncodeError] are subclasses. *)
Definition is_ValueError (e : exn) : bool :=
  match e with
  | ValueError | JSONDecodeError | UnicodeEncodeError => true
  | _ => false
  end.

Inductive outcome (A : Type) : Type :=
| Return (a : A)
| Raise (e : exn).
Arguments Return {A} a.
Arguments Raise {A} e.

Definition obind {A B} (o : outcome A) (k : A -> outcome B) : outcome B :=
  match o with
  | Return a => k a
  | Raise e => Raise e
  end.

(** ** JSON values *)

Inductive pyval : Type :=
| PNone
| PBool (b : bool)
| PInt (z : Z)
| PFloat (lexeme : pystr)
| PStr (s : pystr)
| PList (l : list pyval)
| PDict (d : list (pystr * pyval)).

(** [d[k] = v] on a dict: the value is replaced where the key is, a new
    key goes last. *)
Fixpoint dict_set (d : list (pystr * pyval)) (k : pystr) (v : pyval)
  : list (pystr * pyval) :=
  match d with
  | [] => [(k, v)]
  | (k', v') :: rest =>
    if pystr_eqb k' k then (k', v) :: rest else (k', v') :: dict_set rest k v
  end.

Fixpoint dict_get (d : list (pystr * pyval)) (k : pystr) : option pyval :=
  match d with
  | [] => None
  | (k', v') :: rest => if pystr_eqb k' k then Some v' else dict_get rest k
  end.

(** [dict(pairs)] *)
Definition dict_of_pairs (pairs : list (pystr * pyval)) : list (pystr * pyval) :=
  fold_left (fun d kv => dict_set d (fst kv) (snd kv)) pairs [].

(** ** [json.loads]

    A recursive-descent model of the decoder of the standard library on a
    [str] input: the JSON grammar with the extensions the decoder accepts
    ([NaN], [Infinity], [-Infinity]), strict strings, duplicate keys
    resolved by [dict(pairs)].  A float keeps its lexeme.  Every syntax
    error is a [JSONDecodeError].  [fuel] bounds the descent; its
    exhaustion would be reported as [RecursionError], and [json_loads]
    gives enough of it never to see that (lemma [json_loads_error]).  The
    limits of the interpreter (nesting depth, digits of an integer) are
    not modelled: what they raise is an [Exception] as well and is handled
    by the operations as a syntax error is. *)

(** The class [[ \t\n\r]] of the decoder's [WHITESPACE]. *)
Definition json_ws (c : N) : bool :=
  (c =? 32) || (c =? 9) || (c =? 10) || (c =? 13).

Fixpoint skip_ws (s : pystr) : pystr :=
  match s with
  | c :: r => if json_ws c then skip_ws r else s
  | [] => []
  end.

Definition is_digit (c : N) : bool := (48 <=? c) && (c <=? 57).

Definition hex_digit (c : N) : option N :=
  if is_digit c then Some (c - 48)
  else if (65 <=? c) && (c <=? 70) then Some (c - 55)
  else if (97 <=? c) && (c <=? 102) then Some (c - 87)
  else None.

(** [int(esc, 16)] on four hexadecimal digits *)
Definition hex4 (a b c d : N) : option N :=
  match hex_digit a, hex_digit b, hex_digit c, hex_digit d with
  | Some x, Some y, Some z, Some w => Some (((x * 16 + y) * 16 + z) * 16 + w)
  | _, _, _, _ => None
  end.

(** The table [BACKSLASH] of the decoder. *)
Definition unescape (c : N) : option N :=
  if c =? 34 then Some 34
  else if c =? 92 then Some 92
  else if c =? 47 then Some 47
  else if c =? 98 then Some 8
  else if c =? 102 then Some 12
  else if c =? 110 then Some 10
  else if c =? 114 then Some 13
  else if c =? 116 then Some 9
  else None.

Definition cons_chunk (c : N) (o : outcome (pystr * pystr)) : outcome (pystr * pystr) :=
  obind o (fun p => Return (c :: fst p, snd p)).

(** [scanstring] in strict mode, from the code point after the opening
    quote: the decoded string and what follows the closing quote. *)
Fixpoint scanstring (s : pystr) : outcome (pystr * pystr) :=
  match s with
  | [] => Raise JSONDecodeError
  | c :: r =>
    if c =? 34 then Return ([], r)
    else if c =? 92 then
      match r with
      | [] => Raise JSONDecodeError
      | e :: r1 =>
        if e =? 117 then
          match r1 with
          | h1 :: h2 :: h3 :: h4 :: r2 =>
            match hex4 h1 h2 h3 h4 with
            | None => Raise JSONDecodeError
            | Some uni =>
              if (55296 <=? uni) && (uni <=? 56319) then
                match r2 with
                | b :: l :: g1 :: g2 :: g3 :: g4 :: r3 =>
                  if (b =? 92) && (l =? 117) then
                    match hex4 g1 g2 g3 g4 with
                    | None => Raise JSONDecodeError
                    | Some uni2 =>
                      if (56320 <=? uni2) && (uni2 <=? 57343) then
                        cons_chunk
                          (65536 + N.lor (N.shiftl (uni - 55296) 10) (uni2 - 56320))
                          (scanstring r3)
                      else cons_chunk uni (scanstring r2)
                    end
                  else cons_chunk uni (scanstring r2)
                | _ => cons_chunk uni (scanstring r2)
                end
              else cons_chunk uni (scanstring r2)
            end
          | _ => Raise JSONDecodeError
          end
        else
          match unescape e with
          | Some ch => cons_chunk ch (scanstring r1)
          | None => Raise JSONDecodeError
          end
      end
    else if c <? 32 then Raise JSONDecodeError
    else cons_chunk c (scanstring r)
  end.

(** The leading run of ASCII digits and the rest. *)
Fixpoint span_digits (s : pystr) : pystr * pystr :=
  match s with
  | c :: r =>
    if is_digit c then let p := span_digits r in (c :: fst p, snd p)
    else ([], s)
  | [] => ([], [])
  end.

(** [int(digits)] *)
Definition int_of_digits (ds : pystr) : Z :=
  fold_left (fun acc d => (acc * 10 + Z.of_N (d - 48))%Z) ds 0%Z.

(** [NUMBER_RE.match] at the head of [s]: an optional minus sign and an
    integer part ([0], or a digit from 1 to 9 and any digits), an optional
    fraction (a dot and at least one digit), an optional exponent ([e] or
    [E], an optional sign, at least one digit).  The three groups and the
    rest. *)
Definition match_number (s : pystr) : option (pystr * pystr * pystr * pystr) :=
  let '(sign, s1) :=
    match s with
    | c :: r => if c =? 45 then ([c], r) else ([], s)
    | [] => ([], s)
    end in
  match s1 with
  | [] => None
  | d :: r =>
    if negb (is_digit d) then None
    else
      let '(int_digits, s2) :=
        if d =? 48 then ([d], r) else span_digits s1 in
      let '(frac, s3) :=
        match s2 with
        | dot :: r2 =>
          if dot =? 46 then
            match span_digits r2 with
            | ([], _) => ([], s2)
            | (fd, r3) => (dot :: fd, r3)
            end
          else ([], s2)
        | [] => ([], s2)
        end in
      let '(exp, s4) :=
        match s3 with
        | e :: r3 =>
          if (e =? 101) || (e =? 69) then
            let '(esign, r4) :=
              match r3 with
              | sg :: r' => if (sg =? 45) || (sg =? 43) then ([sg], r') else ([], r3)
              | [] => ([], r3)
              end in
            match span_digits r4 with
            | ([], _) => ([], s3)
            | (ed, r5) => (e :: esign ++ ed, r5)
            end
          else ([], s3)
        | [] => ([], s3)
        end in
      Some (sign ++ int_digits, frac, exp, s4)
  end.

(** The scalar branches of [scan_once]: constants and numbers. *)
Definition scan_scalar (s : pystr) : outcome (pyval * pystr) :=
  if starts_with (u "null") s then Return (PNone, drop 4 s)
  else if starts_with (u "true") s then Return (PBool true, drop 4 s)
  else if starts_with (u "false") s then Return (PBool false, drop 5 s)
  else
    match match_number s with
    | Some (integer, frac, exp, rest) =>
      match frac, exp with
      | [], [] =>
        match integer with
        | 45 :: ds => Return (PInt (- int_of_digits ds), rest)
        | ds => Return (PInt (int_of_digits ds), rest)
        end
      | _, _ => Return (PFloat (integer ++ frac ++ exp), rest)
      end
    | None =>
      if starts_with (u "NaN") s then Return (PFloat (u "NaN"), drop 3 s)
      else if starts_with (u "Infinity") s then Return (PFloat (u "Infinity"), drop 8 s)
      else if starts_with (u "-Infinity") s then Return (PFloat (u "-Infinity"), drop 9 s)
      else Raise JSONDecodeError
    end.

Fixpoint scan_once (fuel : nat) (s : pystr) {struct fuel} : outcome (pyval * pystr) :=
  match fuel with
  | O => Raise RecursionError
  | S fuel' =>
    match s with
    | [] => Raise JSONDecodeError
    | c :: r =>
      if c =? 34 then
        obind (scanstring r) (fun p => Return (PStr (fst p), snd p))
      else if c =? 123 then
        match skip_ws r with
        | c1 :: r1 =>
          if c1 =? 125 then Return (PDict [], r1)
          else if c1 =? 34 then
            obind (object_pairs fuel' r1)
                  (fun p => Return (PDict (dict_of_pairs (fst p)), snd p))
          else Raise JSONDecodeError
        | [] => Raise JSONDecodeError
        end
      else if c =? 91 then
        match skip_ws r with
        | c1 :: r1 =>
          if c1 =? 93 then Return (PList [], r1)
          else obind (array_values fuel' (c1 :: r1))
                     (fun p => Return (PList (fst p), snd p))
        | [] => Raise JSONDecodeError
        end
      else scan_scalar s
    end
  end

(** The loop of [JSONArray], from the first code point of a value. *)
with array_values (fuel : nat) (s : pystr) {struct fuel}
  : outcome (list pyval * pystr) :=
  match fuel with
  | O => Raise RecursionError
  | S fuel' =>
    obind (scan_once fuel' s) (fun p =>
      match skip_ws (snd p) with
      | c :: r =>
        if c =? 93 then Return ([fst p], r)
        else if c =? 44 then
          obind (array_values fuel' (skip_ws r))
                (fun q => Return (fst p :: fst q, snd q))
        else Raise JSONDecodeError
      | [] => Raise JSONDecodeError
      end)
  end

(** The loop of [JSONObject], from the code point after the opening quote
    of a key. *)
with object_pairs (fuel : nat) (s : pystr) {struct fuel}
  : outcome (list (pystr * pyval) * pystr) :=
  match fuel with
  | O => Raise RecursionError
  | S fuel' =>
    obind (scanstring s) (fun k =>
      match skip_ws (snd k) with
      | colon :: r =>
        if colon =? 58 then
          obind (scan_once fuel' (skip_ws r)) (fun p =>
            match skip_ws (snd p) with
            | c :: r' =>
              if c =? 125 then Return ([(fst k, fst p)], r')
              else if c =? 44 then
                match skip_ws r' with
                | q :: r'' =>
                  if q =? 34 then
                    obind (object_pairs fuel' r'')
                          (fun ps => Return ((fst k, fst p) :: fst ps, snd ps))
                  else Raise JSONDecodeError
                | [] => Raise JSONDecodeError
                end
              else Raise JSONDecodeError
            | [] => Raise JSONDecodeError
            end)
        else Raise JSONDecodeError
      | [] => Raise JSONDecodeError
      end)
  end.

(** [json.loads(s)]: one value between optional whitespace, nothing
    after it. *)
Definition json_loads (s : pystr) : outcome pyval :=
  obind (scan_once (2 * length s + 2) (skip_ws s)) (fun p =>
    match skip_ws (snd p) with
    | [] => Return (fst p)
    | _ :: _ => Raise JSONDecodeError
    end).

(** ** The collaborators of the service *)

Definition nl : pystr := [10].

(** [config]: the two settings the module reads. *)
Record Config := {
  GEMINI_API_KEY : option pystr;
  ENABLE_AI_FILTER : bool
}.

(** [genai.GenerativeModel(name)] *)
Record GenerativeModel := { model_name : pystr }.

(** A decoded [PIL.Image]. *)
Inductive Image := PILImage (data : list N).

Inductive Part :=
| PText (s : pystr)
| PImage (img : Image).

(** What is passed to [generate_content_async]: a list of parts or one
    string. *)
Inductive Contents :=
| OfList (parts : list Part)
| OfStr (prompt : pystr).

Inductive Candidate := mkCandidate (content : pystr).

(** The reply of the remote model.  [text] is the quick accessor of the
    client library: it returns a string or raises; [None] stands for the
    [ValueError] it raises when no text can be extracted, the class the
    handler of [analyze_message] names. *)
Record Response := {
  candidates : list Candidate;
  text : option pystr;
  prompt_feedback : option pystr
}.

Module Message.
(** [telegram.Message], of which only [text] is read. *)
Record t := { text : option pystr }.
End Message.

(** The environment of a call: the configuration, the behaviour of the
    remote model on a request, and of [Image.open] on a buffer. *)
Record World := {
  config : Config;
  generate_content_async : GenerativeModel -> Contents -> outcome Response;
  Image_open : list N -> outcome Image
}.

(** What a call changes: the log of the requests sent to the remote model
    and the raw draws the random generator has still to deliver. *)
Record State := {
  calls : list (GenerativeModel * Contents);
  draws : list nat
}.

(** ** The monad of the operations: state and exceptions *)

Definition M (A : Type) : Type := State -> outcome A * State.

Definition ret {A} (a : A) : M A := fun st => (Return a, st).

Definition raise {A} (e : exn) : M A := fun st => (Raise e, st).

Definition bind {A B} (m : M A) (k : A -> M B) : M B :=
  fun st =>
    match m st with
    | (Return a, st') => k a st'
    | (Raise e, st') => (Raise e, st')
    end.

Definition lift {A} (o : outcome A) : M A := fun st => (o, st).

Declare Scope py_scope.
Delimit Scope py_scope with py.
Notation "x <- m ;; k" := (bind m (fun x => k))
  (at level 100, m at next level, right associativity) : py_scope.
Notation "m ;;; k" := (bind m (fun _ => k))
  (at level 100, right associativity) : py_scope.
Local Open Scope py_scope.

(** [try: body  except C: handler], [catches] deciding the class [C]. *)
Definition try_except {A} (body : M A) (catches : exn -> bool) (handler : exn -> M A)
  : M A :=
  fun st =>
    match body st with
    | (Raise e, st') => if catches e then handler e st' else (Raise e, st')
    | r => r
    end.

(** [try: response = await call; rest  except Exception: handler], where
    the handler asks whether ['response' in locals()]: it is given the
    response when the exception came after the assignment. *)
Definition try_except_Exception {A} (call : M Response) (rest : Response -> M A)
    (handler : exn -> option Response -> M A) : M A :=
  fun st =>
    match call st with
    | (Raise e, st1) => handler e None st1
    | (Return response, st1) =>
      match rest response st1 with
      | (Raise e, st2) => handler e (Some response) st2
      | r => r
      end
    end.

(** [await model.generate_content_async(contents)] *)
Definition generate_content (w : World) (m : GenerativeModel) (c : Contents)
  : M Response :=
  fun st =>
    (generate_content_async w m c,
     {| calls := calls st ++ [(m, c)]; draws := draws st |}).

(** [response.text] *)
Definition get_text (response : Response) : M pystr :=
  match text response with
  | Some s => ret s
  | None => raise ValueError
  end.

(** [hasattr(response, 'text')]: the attribute is read; only an
    [AttributeError] would be turned into [False]. *)
Definition hasattr_text (response : Response) : M bool :=
  get_text response ;;; ret true.

(** [print(...)] of values already computed leaves no trace here.  The
    standard output is taken to encode in UTF-8: a text of the message, of
    an exception or of the reply (a protobuf string, which holds no lone
    surrogate) is written without error. *)
Definition print : M unit := ret tt.

(** A surrogate code point, which UTF-8 does not encode. *)
Definition is_surrogate (c : N) : bool := (55296 <=? c) && (c <=? 57343).

(** The parsed values [print] cannot write: the text of a top-level string
    is written as it is, and a lone surrogate in it cannot be encoded; a
    string inside a list or a dict is shown by its [repr], which escapes
    surrogates. *)
Definition unprintable (v : pyval) : bool :=
  match v with
  | PStr s => existsb is_surrogate s
  | _ => false
  end.

(** [print(f"Parsed result: {result}")] *)
Definition print_value (v : pyval) : M unit :=
  if unprintable v then raise UnicodeEncodeError else ret tt.

(** ** [random.shuffle] *)

(** [randbelow(n)]: the next raw draw, reduced below [n]. *)
Definition randbelow (n : nat) : M nat :=
  fun st =>
    match draws st with
    | [] => (Return O, st)
    | r :: rest => (Return (r mod n)%nat, {| calls := calls st; draws := rest |})
    end.

(** [x[i], x[j] = x[j], x[i]] *)
Definition swap (x : list pyval) (i j : nat) : list pyval :=
  match x !! j, x !! i with
  | Some xj, Some xi => <[j:=xi]> (<[i:=xj]> x)
  | _, _ => x
  end.

(** [for i in reversed(range(1, n + 1)): j = randbelow(i + 1); swap] *)
Fixpoint shuffle_down (n : nat) (x : list pyval) : M (list pyval) :=
  match n with
  | O => ret x
  | S n' =>
    j <- randbelow (S n) ;;
    shuffle_down n' (swap x n j)
  end.

Definition shuffle (x : list pyval) : M (list pyval) :=
  shuffle_down (length x - 1) x.

(** ** Python operations on values *)

Definition truthy_str (o : option pystr) : bool :=
  match o with
  | Some (_ :: _) => true
  | _ => false
  end.

Definition truthy_bytes (o : option (list N)) : bool :=
  match o with
  | Some (_ :: _) => true
  | _ => false
  end.

(** [data[key]] for a string key: [KeyError] on a dict without the key,
    [TypeError] on anything that is not a dict. *)
Definition getitem (data : pyval) (key : pystr) : outcome pyval :=
  match data with
  | PDict d =>
    match dict_get d key with
    | Some v => Return v
    | None => Raise KeyError
    end
  | _ => Raise TypeError
  end.

(** [a + [b]]: defined when [a] is a list. *)
Definition add_list (a : pyval) (b : list pyval) : outcome (list pyval) :=
  match a with
  | PList l => Return (l ++ b)
  | _ => Raise TypeError
  end.

(** ** [GeminiService] *)

Record GeminiService := {
  filter_model : option GenerativeModel;
  verification_model : option GenerativeModel
}.

(** [__init__] *)
Definition GeminiService_init (cfg : Config) : GeminiService :=
  if truthy_str (GEMINI_API_KEY cfg) then
    {| filter_model := Some {| model_name := u "gemini-2.5-flash" |};
       verification_model := Some {| model_name := u "gemini-2.5-flash-lite" |} |}
  else
    {| filter_model := None; verification_model := None |}.

Definition verdict (is_spam : bool) (reason : pystr) : pyval :=
  PDict [(u "is_spam", PBool is_spam); (u "reason", PStr reason)].

Definition verdict_disabled : pyval := verdict false (u "AI filter disabled").
Definition verdict_no_content : pyval := verdict false (u "No content to analyze").
Definition verdict_blocked : pyval :=
  verdict true (u "内容审查失败，可能包含不当内容。").
Definition verdict_failed : pyval := verdict false (u "Analysis failed").

Definition prompt_parts : list pystr :=
  [ u "你是一个内容审查员。你的任务是分析提供给你的文本和/或图片内容，并判断其是否包含垃圾信息、恶意软件、钓鱼链接、不当言论、辱骂、攻击性词语或任何违反安全政策的内容。";
    u "请严格按照要求，仅以JSON格式返回你的分析结果，不要包含任何额外的解释或标记。";
    u "**输出格式**: 你必须且只能以严格的JSON格式返回你的分析结果，不得包含任何解释性文字或代码块标记。";
    u "**JSON结构**:" ++ nl ++
      u "```json" ++ nl ++
      u "{" ++ nl ++
      u "  " ++ dq ++ u "is_spam" ++ dq ++ u ": boolean," ++ nl ++
      u "  " ++ dq ++ u "reason" ++ dq ++ u ": " ++ dq ++ u "string" ++ dq ++ nl ++
      u "}" ++ nl ++
      u "```" ++ nl ++
      u "*   `is_spam`: 如果内容违反**任何一条**安全策略，则为 `true`；如果内容完全安全，则为 `false`。" ++ nl ++
      u "*   `reason`: 用一句话精准概括判断依据。如果违规，请明确指出违规的类型。如果安全，此字段固定为 `" ++ dq ++ u "内容未发现违规。" ++ dq ++ u "`";
    nl ++
      u "--- 以下是需要分析的内容 ---" ].

(** Lines 24 to 42 of [analyze_message]: the text when it is truthy, then
    the image when the buffer is truthy and decodes; a decoding error is
    printed and dropped. *)
Definition build_content (w : World) (message : Message.t)
    (image_bytes : option (list N)) : list Part :=
  let content := [] in
  let content :=
    if truthy_str (Message.text message)
    then content ++ [PText (default [] (Message.text message))]
    else content in
  let content :=
    if truthy_bytes image_bytes then
      match Image_open w (default [] image_bytes) with
      | Return image => content ++ [PImage image]
      | Raise _ => content
      end
    else content in
  content.

Definition analyze_message (w : World) (self : GeminiService)
    (message : Message.t) (image_bytes : option (list N)) : M pyval :=
  match filter_model self, ENABLE_AI_FILTER (config w) with
  | Some model, true =>
    let content := build_content w message image_bytes in
    match content with
    | [] => ret verdict_no_content
    | _ :: _ =>
      let content := content ++ [PText (join nl prompt_parts)] in
      try_except_Exception
        (generate_content w model (OfList content))
        (fun response =>
           match candidates response with
           | [] => print ;;; ret verdict_blocked
           | _ :: _ =>
             get_text response ;;;
             t <- get_text response ;;
             match t with
             | [] => raise ValueError
             | _ :: _ =>
               t' <- get_text response ;;
               result <- lift (json_loads (clean_text t')) ;;
               print_value result ;;;
               ret result
             end
           end)
        (fun e response_in_locals =>
           match response_in_locals with
           | Some response =>
             try_except
               (match candidates response with
                | _ :: _ => get_text response ;;; print
                | [] => ret tt
                end)
               is_ValueError
               (fun _ => print) ;;;
             ret verdict_failed
           | None => ret verdict_failed
           end)
    end
  | _, _ => ret verdict_disabled
  end.

Definition unblock_fallback : pyval :=
  PDict [(u "question", PStr (u "中国的首都是哪里？"));
         (u "answer", PStr (u "北京"))].

Definition unblock_prompt : pystr :=
  nl ++
  u "        生成一个简单的常识问题用于解封验证。" ++ nl ++
  u "        请以JSON格式回复: {{" ++ dq ++ u "question" ++ dq ++ u ": " ++ dq ++ u "问题" ++ dq ++ u ", " ++ dq ++ u "answer" ++ dq ++ u ": " ++ dq ++ u "答案" ++ dq ++ u "}}" ++ nl ++
  u "        ".

Definition generate_unblock_question (w : World) (self : GeminiService) : M pyval :=
  match verification_model self with
  | None => ret unblock_fallback
  | Some model =>
    try_except_Exception
      (generate_content w model (OfStr unblock_prompt))
      (fun response =>
         t <- get_text response ;;
         lift (json_loads t))
      (fun e _ => print ;;; ret unblock_fallback)
  end.

Definition challenge_fallback : pyval :=
  PDict [(u "question", PStr (u "1 + 1 = ?"));
         (u "correct_answer", PStr (u "2"));
         (u "options", PList [PStr (u "1"); PStr (u "2"); PStr (u "3"); PStr (u "4")])].

Definition challenge_prompt : pystr :=
  nl ++
  u "        请生成一个用于人机验证的常识性问题。" ++ nl ++
  u "        要求：" ++ nl ++
  u "        1. 问题应该简单，大部分人都能回答。" ++ nl ++
  u "        2. 提供一个正确答案和三个看起来合理但错误的干扰项。" ++ nl ++
  u "        3. 所有内容必须为简体中文。" ++ nl ++
  u "        4. 以JSON格式返回，包含以下键： " ++ dq ++ u "question" ++ dq ++ u ", " ++ dq ++ u "correct_answer" ++ dq ++ u ", " ++ dq ++ u "incorrect_answers" ++ dq ++ u " (一个包含三个字符串的列表)。" ++ nl ++
  u "        " ++ nl ++
  u "        示例:" ++ nl ++
  u "        {" ++ nl ++
  u "          " ++ dq ++ u "question" ++ dq ++ u ": " ++ dq ++ u "太阳从哪个方向升起？" ++ dq ++ u "," ++ nl ++
  u "          " ++ dq ++ u "correct_answer" ++ dq ++ u ": " ++ dq ++ u "东方" ++ dq ++ u "," ++ nl ++
  u "          " ++ dq ++ u "incorrect_answers" ++ dq ++ u ": [" ++ dq ++ u "西方" ++ dq ++ u ", " ++ dq ++ u "南方" ++ dq ++ u ", " ++ dq ++ u "北方" ++ dq ++ u "]" ++ nl ++
  u "        }" ++ nl ++
  u "        ".

Definition challenge (question correct_answer : pyval) (options : list pyval) : pyval :=
  PDict [(u "question", question);
         (u "correct_answer", correct_answer);
         (u "options", PList options)].

(** Lines 130 to 146: the [try] block after the remote call. *)
Definition challenge_try_body (response : Response) : M pyval :=
  t <- get_text response ;;
  match t with
  | [] => raise ValueError
  | _ :: _ =>
    t' <- get_text response ;;
    data <- lift (json_loads (clean_text t')) ;;
    correct_answer <- lift (getitem data (u "correct_answer")) ;;
    incorrect_answers <- lift (getitem data (u "incorrect_answers")) ;;
    options <- lift (add_list incorrect_answers [correct_answer]) ;;
    options <- shuffle options ;;
    question <- lift (getitem data (u "question")) ;;
    ret (challenge question correct_answer options)
  end.

(** Lines 147 to 157: the handler. *)
Definition challenge_except (e : exn) (response_in_locals : option Response)
  : M pyval :=
  print ;;;
  match response_in_locals with
  | Some response =>
    has <- hasattr_text response ;;
    (if has then get_text response ;;; print else ret tt) ;;;
    ret challenge_fallback
  | None => ret challenge_fallback
  end.

Definition generate_verification_challenge (w : World) (self : GeminiService)
  : M pyval :=
  match verification_model self with
  | None => ret challenge_fallback
  | Some model =>
    try_except_Exception
      (generate_content w model (OfStr challenge_prompt))
      challenge_try_body
      challenge_except
  end.

(** The module-level instance [gemini_service = GeminiService()]. *)
Definition gemini_service (w : World) : GeminiService :=
  GeminiService_init (config w).

(** ** Sample environments *)

Definition st0 : State := {| calls := []; draws := [] |}.

Definition cfg_on : Config :=
  {| GEMINI_API_KEY := Some (u "k-123"); ENABLE_AI_FILTER := true |}.
Definition cfg_flag_off : Config :=
  {| GEMINI_API_KEY := Some (u "k-123"); ENABLE_AI_FILTER := false |}.
Definition cfg_no_key : Config :=
  {| GEMINI_API_KEY := None; ENABLE_AI_FILTER := true |}.

(** A world whose remote model answers every request with [r] and whose
    image decoder accepts exactly the buffers that start with byte 137. *)
Definition world (cfg : Config) (r : outcome Response) : World :=
  {| config := cfg;
     generate_content_async := fun _ _ => r;
     Image_open := fun b =>
       match b with
       | 137 :: _ => Return (PILImage b)
       | _ => Raise (OtherException "UnidentifiedImageError")
       end |}.

(** A reply with one candidate carrying the text [t]. *)
Definition reply (t : pystr) : Response :=
  {| candidates := [mkCandidate t]; text := Some t; prompt_feedback := None |}.

(** A reply the remote service blocked: no candidate, and a text accessor
    that raises. *)
Definition blocked_reply : Response :=
  {| candidates := []; text := None;
     prompt_feedback := Some (u "block_reason: SAFETY") |}.

(** A reply with a candidate that holds no text part. *)
Definition textless_reply : Response :=
  {| candidates := [mkCandidate []]; text := None; prompt_feedback := None |}.

Definition msg (s : string) : Message.t := {| Message.text := Some (u s) |}.
Definition msg_no_text : Message.t := {| Message.text := None |}.

(** The contents [analyze_message] sends for a given input. *)
Definition filter_request (w : World) (message : Message.t)
    (image_bytes : option (list N)) : Contents :=
  OfList (build_content w message image_bytes ++ [PText (join nl prompt_parts)]).

(** The state after one more request. *)
Definition logged (st : State) (m : GenerativeModel) (c : Contents) : State :=
  {| calls := calls st ++ [(m, c)]; draws := draws st |}.

(** ** Sample replies and notions used in the statements *)

(** The JSON text of a spam verdict, and the same inside code fences. *)
Definition spam_json : pystr :=
  u "{" ++ dq ++ u "is_spam" ++ dq ++ u ": true, "
    ++ dq ++ u "reason" ++ dq ++ u ": " ++ dq ++ u "辱骂" ++ dq ++ u "}".

Definition fenced_spam_reply : pystr := fence_json ++ (nl ++ spam_json ++ nl) ++ fence.




(** The requests the two generators send. *)
Definition unblock_request : Contents := OfStr unblock_prompt.

Definition challenge_request : Contents := OfStr challenge_prompt.

(** The ways a retrieved text makes the [try] block of
    [generate_verification_challenge] raise. *)
Inductive rejected (t : pystr) : Prop :=
| rejected_empty :
    t = [] -> rejected t
| rejected_json e :
    json_loads (clean_text t) = Raise e -> rejected t
| rejected_correct_answer data e :
    json_loads (clean_text t) = Return data ->
    getitem data (u "correct_answer") = Raise e -> rejected t
| rejected_incorrect_answers data e :
    json_loads (clean_text t) = Return data ->
    getitem data (u "incorrect_answers") = Raise e -> rejected t
| rejected_not_a_list data x :
    json_loads (clean_text t) = Return data ->
    getitem data (u "incorrect_answers") = Return x ->
    (forall l, x <> PList l) -> rejected t
| rejected_question data e :
    json_loads (clean_text t) = Return data ->
    getitem data (u "question") = Raise e -> rejected t.

(** A well-formed challenge, and one with two incorrect answers only. *)
Definition quiz_reply : pystr :=
  u "{" ++ dq ++ u "question" ++ dq ++ u ": " ++ dq ++ u "Q" ++ dq ++ u ", "
    ++ dq ++ u "correct_answer" ++ dq ++ u ": " ++ dq ++ u "A" ++ dq ++ u ", "
    ++ dq ++ u "incorrect_answers" ++ dq ++ u ": ["
    ++ dq ++ u "B" ++ dq ++ u "," ++ dq ++ u "C" ++ dq ++ u "," ++ dq ++ u "D" ++ dq
    ++ u "]}".

Definition short_quiz_reply : pystr :=
  u "{" ++ dq ++ u "question" ++ dq ++ u ": " ++ dq ++ u "Q" ++ dq ++ u ", "
    ++ dq ++ u "correct_answer" ++ dq ++ u ": " ++ dq ++ u "A" ++ dq ++ u ", "
    ++ dq ++ u "incorrect_answers" ++ dq ++ u ": ["
    ++ dq ++ u "B" ++ dq ++ u "," ++ dq ++ u "C" ++ dq ++ u "]}".


(** The world [w] with a remote model that gives the outcome [o] to every
    request. *)
Definition answering (w : World) (o : outcome Response) : World :=
  {| config := config w;
     generate_content_async := fun _ _ => o;
     Image_open := Image_open w |}.

(** * Properties *)

(** ** Helper lemmas *)

Lemma init_without_key (cfg : Config) :
  truthy_str (GEMINI_API_KEY cfg) = false ->
  GeminiService_init cfg = {| filter_model := None; verification_model := None |}.
Proof. intros H. unfold GeminiService_init. by rewrite H. Qed.


(** [analyze_message] past its two guards: the request is sent and the
    [try] statement decides. *)
Lemma analyze_message_sends w self message image_bytes model :
  filter_model self = Some model ->
  ENABLE_AI_FILTER (config w) = true ->
  build_content w message image_bytes <> [] ->
  forall st,
    analyze_message w self message image_bytes st =
    match generate_content_async w model (filter_request w message image_bytes) with
    | Raise e => (Return verdict_failed, logged st model (filter_request w message image_bytes))
    | Return response =>
      match candidates response with
      | [] => (Return verdict_blocked, logged st model (filter_request w message image_bytes))
      | _ :: _ =>
        match text response with
        | None | Some [] =>
          (Return verdict_failed, logged st model (filter_request w message image_bytes))
        | Some (c :: t) =>
          match json_loads (clean_text (c :: t)) with
          | Return v =>
            (Return (if unprintable v then verdict_failed else v),
             logged st model (filter_request w message image_bytes))
          | Raise _ =>
            (Return verdict_failed, logged st model (filter_request w message image_bytes))
          end
        end
      end
    end.
Proof.
  intros Hm Hflag Hc st. unfold analyze_message, filter_request. rewrite Hm, Hflag.
  destruct (build_content w message image_bytes) as [|p content] eqn:Hb; [done|].
  unfold try_except_Exception, generate_content, logged.
  destruct (generate_content_async w model _) as [response|e]; [|done].
  destruct (candidates response) as [|cand cands] eqn:Hcand; [done|].
  unfold bind, get_text, try_except, lift, print_value, print, ret, raise.
  destruct (text response) as [[|c t]|]; [done| |done].
  destruct (json_loads (clean_text (c :: t))) as [v|e]; [|done].
  by destruct (unprintable v).
Qed.

(** The first guard of [analyze_message]. *)
Lemma analyze_message_guard w self message image_bytes st :
  filter_model self = None \/ ENABLE_AI_FILTER (config w) = false ->
  analyze_message w self message image_bytes st = (Return verdict_disabled, st).
Proof.
  intros [Hnone|Hoff]; unfold analyze_message.
  - by rewrite Hnone.
  - rewrite Hoff. by destruct (filter_model self).
Qed.

(** ** C7 *)

(** C7: whatever the text and the image bytes, when the adapter has no
    credential (so that the filter model handle is absent), or the handle
    is absent, or the AI-filter flag is off, [analyze_message] returns
    [{is_spam: False, reason: "AI filter disabled"}] and leaves the state,
    hence the log of remote calls, as it was. *)
Theorem analyze_message_disabled w self message image_bytes st :
  (self = gemini_service w /\ truthy_str (GEMINI_API_KEY (config w)) = false)
  \/ filter_model self = None
  \/ ENABLE_AI_FILTER (config w) = false ->
  analyze_message w self message image_bytes st = (Return verdict_disabled, st).
Proof.
  intros [[-> Hkey]|Hguard]; [|by apply analyze_message_guard].
  apply analyze_message_guard. left.
  unfold gemini_service. by rewrite (init_without_key _ Hkey).
Qed.

Lemma analyze_message_disabled_witness :
  analyze_message (world cfg_flag_off (Return (reply (u "{}"))))
                  (GeminiService_init cfg_flag_off) (msg "buy now!!!") None st0
  = (Return verdict_disabled, st0).
Proof. apply analyze_message_disabled. right; right. reflexivity. Defined.

(** ** C8 *)

(** C8: in a configured, flag-enabled call where the text is absent or
    empty and the image buffer is absent, empty or rejected by the
    decoder, the content list is empty and [analyze_message] returns
    [{is_spam: False, reason: "No content to analyze"}] without any remote
    call (the state is unchanged). *)
Theorem analyze_message_no_content w self message image_bytes model st :
  filter_model self = Some model ->
  ENABLE_AI_FILTER (config w) = true ->
  truthy_str (Message.text message) = false ->
  (truthy_bytes image_bytes = false
   \/ exists e, Image_open w (default [] image_bytes) = Raise e) ->
  build_content w message image_bytes = []
  /\ analyze_message w self message image_bytes st = (Return verdict_no_content, st).
Proof.
  intros Hm Hflag Htext Himg.
  assert (Hb : build_content w message image_bytes = []).
  { unfold build_content. rewrite Htext.
    destruct Himg as [->|[e He]]; [done|].
    rewrite He. by destruct (truthy_bytes image_bytes). }
  split; [done|].
  unfold analyze_message. by rewrite Hm, Hflag, Hb.
Qed.

Lemma analyze_message_no_content_witness :
  build_content (world cfg_on (Return (reply (u "{}")))) msg_no_text (Some [71; 73; 70]) = []
  /\ analyze_message (world cfg_on (Return (reply (u "{}"))))
                     (GeminiService_init cfg_on) msg_no_text (Some [71; 73; 70]) st0
     = (Return verdict_no_content, st0).
Proof.
  apply (analyze_message_no_content _ _ _ _ {| model_name := u "gemini-2.5-flash" |}).
  - reflexivity.
  - reflexivity.
  - reflexivity.
  - right. eexists. reflexivity.
Defined.

(** ** C4 *)

(** C4: in a configured, flag-enabled call with a non-empty content list,
    a reply without candidates gives
    [{is_spam: True, reason: "内容审查失败，可能包含不当内容。"}]; the value is
    returned, no exception is involved, and exactly the one request has
    been logged. *)
Theorem analyze_message_blocked w self message image_bytes model response st :
  filter_model self = Some model ->
  ENABLE_AI_FILTER (config w) = true ->
  build_content w message image_bytes <> [] ->
  generate_content_async w model (filter_request w message image_bytes) = Return response ->
  candidates response = [] ->
  analyze_message w self message image_bytes st
  = (Return (verdict true (u "内容审查失败，可能包含不当内容。")),
     logged st model (filter_request w message image_bytes)).
Proof.
  intros Hm Hflag Hc Hr Hcand.
  rewrite (analyze_message_sends _ _ _ _ _ Hm Hflag Hc), Hr, Hcand. reflexivity.
Qed.

Lemma analyze_message_blocked_witness :
  analyze_message (world cfg_on (Return blocked_reply)) (GeminiService_init cfg_on)
                  (msg "some text") None st0
  = (Return (verdict true (u "内容审查失败，可能包含不当内容。")),
     logged st0 {| model_name := u "gemini-2.5-flash" |}
            (filter_request (world cfg_on (Return blocked_reply)) (msg "some text") None)).
Proof.
  apply (analyze_message_blocked _ _ _ _ _ blocked_reply).
  - reflexivity.
  - reflexivity.
  - discriminate.
  - reflexivity.
  - reflexivity.
Defined.

(** ** Fence stripping *)

Section FenceStripping.

Implicit Types s b : pystr.

Lemma rstrip_nil_iff b : rstrip b = [] <-> forallb isspace b = true.
Proof.
  induction b as [|c b IH]; simpl; [done|].
  destruct (rstrip b) as [|d r'] eqn:Hr.
  - destruct (isspace c); simpl; [tauto|]. split; done.
  - split; [done|]. intros [_ Hb]%andb_prop. by apply IH in Hb.
Qed.

Lemma rstrip_idemp b : rstrip (rstrip b) = rstrip b.
Proof.
  induction b as [|c b IH]; simpl; [done|].
  destruct (rstrip b) as [|d r'] eqn:Hr.
  - destruct (isspace c) eqn:Hc; simpl; [done|]. by rewrite Hc.
  - change (rstrip (c :: d :: r')) with
      (match rstrip (d :: r') with
       | [] => if isspace c then [] else [c]
       | r'' => c :: r''
       end).
    by rewrite IH.
Qed.

Lemma lstrip_head b :
  lstrip b = [] \/ exists c r, lstrip b = c :: r /\ isspace c = false.
Proof.
  induction b as [|c b IH]; simpl; [by left|].
  destruct (isspace c) eqn:Hc; [done|]. right. by exists c, b.
Qed.

Lemma lstrip_rstrip_head c r :
  isspace c = false -> lstrip (rstrip (c :: r)) = rstrip (c :: r).
Proof.
  intros Hc. simpl. destruct (rstrip r); rewrite ?Hc; simpl; by rewrite Hc.
Qed.

Lemma strip_idemp b : strip (strip b) = strip b.
Proof.
  unfold strip.
  destruct (lstrip_head b) as [->|(c & r & -> & Hc)]; [done|].
  by rewrite lstrip_rstrip_head, rstrip_idemp.
Qed.

Lemma drop_ws_run s : drop (ws_run s) s = lstrip s.
Proof. induction s as [|c s IH]; simpl; [done|]. by destruct (isspace c). Qed.

Lemma re_sub_from_ws_run s : re_sub_from (ws_run s) s = re_sub_from O (lstrip s).
Proof. induction s as [|c s IH]; simpl; [done|]. by destruct (isspace c). Qed.

Lemma re_sub_from_all k s : (length s <= k)%nat -> re_sub_from k s = [].
Proof.
  revert k. induction s as [|c s IH]; intros k Hk; simpl in *; [done|].
  destruct k as [|k]; [lia|]. apply IH. lia.
Qed.

Lemma lstrip_app_fence b : lstrip (b ++ fence) = lstrip b ++ fence.
Proof. induction b as [|c b IH]; simpl; [done|]. by destruct (isspace c). Qed.

Lemma lstrip_no_backtick b : 96 ∉ b -> 96 ∉ lstrip b.
Proof.
  induction b as [|c b IH]; simpl; [done|].
  intros Hb. destruct (isspace c); [|done].
  apply IH. intros ?. apply Hb. by right.
Qed.

Lemma lstrip_nil_iff b : lstrip b = [] <-> forallb isspace b = true.
Proof.
  induction b as [|c b IH]; simpl; [done|].
  destruct (isspace c); simpl; [done|]. split; done.
Qed.

Lemma ws_run_all b s : forallb isspace b = true -> ws_run (b ++ s) = (length b + ws_run s)%nat.
Proof.
  induction b as [|c b IH]; simpl; [done|].
  intros [-> Hb]%andb_prop. by rewrite IH.
Qed.

Lemma starts_with_other_head p c s :
  (96 =? c) = false -> starts_with (96 :: p) (c :: s) = false.
Proof.
  intros H.
  change (starts_with (96 :: p) (c :: s)) with ((96 =? c) && starts_with p s).
  by rewrite H.
Qed.

(** The pattern at the head of a text without backticks that is followed
    by a closing fence: the second alternative matches exactly when the
    text is all whitespace, and then it takes the text and the fence. *)
Lemma match_at_before_fence c b :
  96 ∉ c :: b ->
  match_at ((c :: b) ++ fence) =
    if forallb isspace (c :: b) then Some (length (c :: b) + length fence)%nat
    else None.
Proof.
  intros Hb. unfold match_at.
  assert (Hc : (96 =? c) = false).
  { apply N.eqb_neq. intros <-. apply Hb. by left. }
  change ((c :: b) ++ fence) with (c :: (b ++ fence)) at 1.
  change fence_json with (96 :: (96 :: 96 :: u "json")).
  rewrite (starts_with_other_head _ _ _ Hc).
  rewrite drop_ws_run, lstrip_app_fence.
  destruct (forallb isspace (c :: b)) eqn:Hall.
  - rewrite (ws_run_all _ _ Hall).
    apply lstrip_nil_iff in Hall as ->. simpl. by rewrite Nat.add_0_r.
  - destruct (lstrip_head (c :: b)) as [Hnil|(d & r & Hd & Hsp)].
    + apply lstrip_nil_iff in Hnil. congruence.
    + assert (Hd96 : (96 =? d) = false).
      { apply N.eqb_neq. intros <-.
        apply (lstrip_no_backtick _ Hb). rewrite Hd. by left. }
      rewrite Hd. change ((d :: r) ++ fence) with (d :: (r ++ fence)).
      change (starts_with fence (d :: r ++ fence))
        with (starts_with (96 :: [96; 96]) (d :: (r ++ fence))).
      by rewrite (starts_with_other_head _ _ _ Hd96).
Qed.

(** [re.sub] on a text without backticks followed by a closing fence
    removes the fence and the whitespace before it. *)
Lemma re_sub_before_fence b : 96 ∉ b -> re_sub_from O (b ++ fence) = rstrip b.
Proof.
  induction b as [|c b IH]; intros Hb; [done|].
  assert (Hb' : 96 ∉ b) by (intros ?; apply Hb; by right).
  change (re_sub_from O ((c :: b) ++ fence)) with
    (match match_at ((c :: b) ++ fence) with
     | Some (S k) => re_sub_from k (b ++ fence)
     | _ => c :: re_sub_from O (b ++ fence)
     end).
  rewrite (match_at_before_fence _ _ Hb), (IH Hb').
  destruct (forallb isspace (c :: b)) eqn:Hall.
  - apply rstrip_nil_iff in Hall as ->.
    change (length (c :: b) + length fence)%nat with (S (length b + 3)).
    cbv iota. apply re_sub_from_all. rewrite length_app. simpl. lia.
  - simpl. destruct (rstrip b) as [|d r'] eqn:Hr; [|done].
    apply rstrip_nil_iff in Hr. simpl in Hall. rewrite Hr, andb_true_r in Hall.
    by rewrite Hall.
Qed.

Lemma re_sub_after_fence_json s :
  re_sub_fences (fence_json ++ s) = re_sub_from O (lstrip s).
Proof.
  unfold re_sub_fences.
  change (fence_json ++ s) with (96 :: 96 :: 96 :: 106 :: 115 :: 111 :: 110 :: s).
  change (re_sub_from O (96 :: 96 :: 96 :: 106 :: 115 :: 111 :: 110 :: s))
    with (re_sub_from (ws_run s) s).
  apply re_sub_from_ws_run.
Qed.

(** A text between an opening [```json] fence and a closing fence, with
    no backtick of its own, is cleaned to the text stripped. *)
Lemma clean_text_fenced b :
  96 ∉ b -> clean_text (fence_json ++ b ++ fence) = strip b.
Proof.
  intros Hb. unfold clean_text.
  rewrite re_sub_after_fence_json, lstrip_app_fence.
  rewrite (re_sub_before_fence _ (lstrip_no_backtick _ Hb)).
  apply strip_idemp.
Qed.

End FenceStripping.

(** ** The decoder and its fuel *)

Section Decoder.

Implicit Types s r : pystr.

Lemma skip_ws_length s : (length (skip_ws s) <= length s)%nat.
Proof. induction s as [|c s IH]; simpl; [done|]. destruct (json_ws c); simpl; lia. Qed.

Lemma starts_with_length p s : starts_with p s = true -> (length p <= length s)%nat.
Proof.
  revert s. induction p as [|a p IH]; intros [|b s]; simpl; try done; try lia.
  intros [_ H]%andb_prop. apply IH in H. lia.
Qed.

Lemma span_digits_length s : (length (span_digits s).2 <= length s)%nat.
Proof. induction s as [|c s IH]; simpl; [done|]. destruct (is_digit c); simpl; lia. Qed.

Ltac name_head_let x :=
  lazymatch goal with
  | |- (let '(_, _) := ?t in _) = _ -> _ => set (x := t)
  | |- (length (let '(_, _) := ?t in _).2 <= _)%nat => set (x := t)
  end.

Lemma match_number_length s i f e r :
  match_number s = Some (i, f, e, r) -> (length r < length s)%nat.
Proof.
  unfold match_number.
  name_head_let p.
  assert (Hp : (length p.2 <= length s)%nat).
  { subst p. destruct s as [|c r0]; simpl; [lia|]. destruct (c =? 45); simpl; lia. }
  destruct p as [sign s1]. simpl in Hp.
  destruct s1 as [|d r1]; [done|].
  destruct (is_digit d) eqn:Hd; [|done]. cbn [negb].
  name_head_let q.
  assert (Hq : (length q.2 <= length r1)%nat).
  { subst q. destruct (d =? 48); simpl; [lia|]. rewrite Hd. simpl. apply span_digits_length. }
  destruct q as [int_digits s2]. simpl in Hq.
  name_head_let fr.
  assert (Hfr : (length fr.2 <= length s2)%nat).
  { subst fr. destruct s2 as [|dot r2]; simpl; [lia|]. destruct (dot =? 46); simpl; [|lia].
    pose proof (span_digits_length r2). destruct (span_digits r2) as [[|x fd] r3]; simpl in *; lia. }
  destruct fr as [frac s3]. simpl in Hfr.
  name_head_let xp.
  assert (Hex : (length xp.2 <= length s3)%nat).
  { subst xp. destruct s3 as [|e0 r3]; [simpl; lia|].
    destruct ((e0 =? 101) || (e0 =? 69)); [|simpl; lia].
    name_head_let sg.
    assert (Hsg : (length sg.2 <= length r3)%nat).
    { subst sg. destruct r3 as [|g r']; simpl; [lia|]. destruct ((g =? 45) || (g =? 43)); simpl; lia. }
    destruct sg as [esign r4]. simpl in Hsg.
    pose proof (span_digits_length r4). destruct (span_digits r4) as [[|x ed] r5]; simpl in *; lia. }
  destruct xp as [exp s4]. simpl in Hex.
  intros [= _ _ _ <-]. simpl in *. lia.
Qed.

Lemma scan_scalar_length s v r :
  scan_scalar s = Return (v, r) -> (length r < length s)%nat.
Proof.
  unfold scan_scalar.
  destruct (starts_with (u "null") s) eqn:H1.
  { intros [= _ <-]. apply starts_with_length in H1.
    change (length (u "null")) with 4%nat in H1. rewrite length_drop. lia. }
  destruct (starts_with (u "true") s) eqn:H2.
  { intros [= _ <-]. apply starts_with_length in H2.
    change (length (u "true")) with 4%nat in H2. rewrite length_drop. lia. }
  destruct (starts_with (u "false") s) eqn:H3.
  { intros [= _ <-]. apply starts_with_length in H3.
    change (length (u "false")) with 5%nat in H3. rewrite length_drop. lia. }
  destruct (match_number s) as [[[[i f] e] rest]|] eqn:Hm.
  { apply match_number_length in Hm.
    repeat case_match; intros [= _ <-]; done. }
  destruct (starts_with (u "NaN") s) eqn:H4.
  { intros [= _ <-]. apply starts_with_length in H4.
    change (length (u "NaN")) with 3%nat in H4. rewrite length_drop. lia. }
  destruct (starts_with (u "Infinity") s) eqn:H5.
  { intros [= _ <-]. apply starts_with_length in H5.
    change (length (u "Infinity")) with 8%nat in H5. rewrite length_drop. lia. }
  destruct (starts_with (u "-Infinity") s) eqn:H6; [|done].
  intros [= _ <-]. apply starts_with_length in H6.
  change (length (u "-Infinity")) with 9%nat in H6. rewrite length_drop. lia.
Qed.

Lemma scan_scalar_error s e : scan_scalar s = Raise e -> e = JSONDecodeError.
Proof.
  unfold scan_scalar.
  repeat (match goal with |- context [if ?b then _ else _] => destruct b end; try done).
  - destruct (match_number s) as [[[[i f] ex] rest]|]; [|congruence].
    repeat case_match; done.
  - destruct (match_number s) as [[[[i f] ex] rest]|]; [|done].
    repeat case_match; done.
  - destruct (match_number s) as [[[[i f] ex] rest]|]; [|done].
    repeat case_match; done.
  - destruct (match_number s) as [[[[i f] ex] rest]|]; [|congruence].
    repeat case_match; done.
Qed.

Lemma cons_chunk_Return c o k r :
  cons_chunk c o = Return (k, r) -> exists k', o = Return (k', r).
Proof. destruct o as [[k' r']|]; [|done]. intros [= _ <-]. by exists k'. Qed.

Lemma cons_chunk_Raise c o e : cons_chunk c o = Raise e -> o = Raise e.
Proof. by destruct o as [[k' r']|]; intros [=]; subst. Qed.

Lemma scanstring_spec n s :
  (length s <= n)%nat ->
  (forall k r, scanstring s = Return (k, r) -> (length r < length s)%nat)
  /\ (forall e, scanstring s = Raise e -> e = JSONDecodeError).
Proof.
  revert s. induction n as [|n IH]; intros [|c s] Hn; simpl in Hn; try lia;
    try (split; [done|by intros e [= <-]]).
  split.
  - intros k r. simpl.
    repeat case_match; try done;
      try (intros [k' H']%cons_chunk_Return; apply IH in H'; simpl in *; lia);
      try (intros [= _ <-]; simpl; lia).
  - intros e. simpl.
    repeat case_match; try done; try (by intros [= <-]);
      try (intros H'%cons_chunk_Raise; apply IH in H'; [done|simpl in *; lia]).
Qed.

Lemma scanstring_length s k r :
  scanstring s = Return (k, r) -> (length r < length s)%nat.
Proof. apply (scanstring_spec (length s) s); lia. Qed.

Lemma scanstring_error s e : scanstring s = Raise e -> e = JSONDecodeError.
Proof. apply (scanstring_spec (length s) s); lia. Qed.

Lemma obind_Return {A B} (o : outcome A) (k : A -> outcome B) b :
  obind o k = Return b -> exists a, o = Return a /\ k a = Return b.
Proof. destruct o as [a|]; [|done]. intros H. by exists a. Qed.

Lemma obind_Raise {A B} (o : outcome A) (k : A -> outcome B) e :
  obind o k = Raise e -> o = Raise e \/ exists a, o = Return a /\ k a = Raise e.
Proof. destruct o as [a|e']; intros H; [right; by exists a|left; by injection H as ->]. Qed.

(** Every value the decoder returns has consumed part of its input. *)
Lemma decoder_consumes fuel :
  (forall s v r, scan_once fuel s = Return (v, r) -> (length r < length s)%nat)
  /\ (forall s vs r, array_values fuel s = Return (vs, r) -> (length r < length s)%nat)
  /\ (forall s ps r, object_pairs fuel s = Return (ps, r) -> (length r < length s)%nat).
Proof.
  induction fuel as [|fuel (IHv & IHa & IHo)]; [done|].
  split; [|split].
  - intros [|c s] v r; [done|]. simpl.
    pose proof (skip_ws_length s) as Hws.
    destruct (c =? 34).
    { intros ([k r'] & Hs%scanstring_length & [= _ <-])%obind_Return. simpl. lia. }
    destruct (c =? 123).
    { destruct (skip_ws s) as [|c1 r1]; [done|]. simpl in Hws.
      destruct (c1 =? 125); [intros [= _ <-]; lia|].
      destruct (c1 =? 34); [|done].
      intros ([ps r'] & Ho%IHo & [= _ <-])%obind_Return. simpl. lia. }
    destruct (c =? 91); [|intros Hsc%scan_scalar_length; simpl in Hsc; lia].
    destruct (skip_ws s) as [|c1 r1]; [done|]. simpl in Hws.
    destruct (c1 =? 93); [intros [= _ <-]; lia|].
    intros ([vs r'] & Ha%IHa & [= _ <-])%obind_Return. simpl in *. lia.
  - intros s vs r. simpl.
    intros ([v r1] & Hv%IHv & Hk)%obind_Return. simpl in Hk.
    pose proof (skip_ws_length r1) as Hws.
    destruct (skip_ws r1) as [|c r2]; [done|]. simpl in Hws.
    destruct (c =? 93); [injection Hk as _ <-; lia|].
    destruct (c =? 44); [|done].
    apply obind_Return in Hk as ([vs' r3] & Ha%IHa & [= _ <-]).
    pose proof (skip_ws_length r2). simpl. lia.
  - intros s ps r. simpl.
    intros ([k r1] & Hs%scanstring_length & Hk)%obind_Return. simpl in Hk.
    pose proof (skip_ws_length r1) as Hws.
    destruct (skip_ws r1) as [|colon r2]; [done|]. simpl in Hws.
    destruct (colon =? 58); [|done].
    apply obind_Return in Hk as ([v r3] & Hv%IHv & Hk). simpl in Hk.
    pose proof (skip_ws_length r2) as Hws2.
    pose proof (skip_ws_length r3) as Hws3.
    destruct (skip_ws r3) as [|c r4]; [done|]. simpl in Hws3.
    destruct (c =? 125); [injection Hk as _ <-; lia|].
    destruct (c =? 44); [|done].
    pose proof (skip_ws_length r4) as Hws4.
    destruct (skip_ws r4) as [|q r5]; [done|]. simpl in Hws4.
    destruct (q =? 34); [|done].
    apply obind_Return in Hk as ([ps' r6] & Ho%IHo & [= _ <-]). simpl. lia.
Qed.

(** With fuel above twice the length of the input, the decoder never runs
    out of it. *)
Lemma decoder_fuel fuel :
  (forall s, (2 * length s + 1 <= fuel)%nat -> scan_once fuel s <> Raise RecursionError)
  /\ (forall s, (2 * length s + 2 <= fuel)%nat -> array_values fuel s <> Raise RecursionError)
  /\ (forall s, (2 * length s + 2 <= fuel)%nat -> object_pairs fuel s <> Raise RecursionError).
Proof.
  induction fuel as [|fuel (IHv & IHa & IHo)]; [repeat split; intros s; lia|].
  destruct (decoder_consumes fuel) as (Cv & Ca & Co).
  split; [|split].
  - intros [|c s] Hf; [done|]. simpl in *.
    pose proof (skip_ws_length s) as Hws.
    destruct (c =? 34).
    { intros [Hs%scanstring_error|([k r'] & _ & [=])]%obind_Raise. done. }
    destruct (c =? 123).
    { destruct (skip_ws s) as [|c1 r1]; [done|]. simpl in Hws.
      destruct (c1 =? 125); [done|].
      destruct (c1 =? 34); [|done].
      intros [Ho|([ps r'] & _ & [=])]%obind_Raise. revert Ho. apply IHo. lia. }
    destruct (c =? 91); [|by intros Hsc%scan_scalar_error].
    destruct (skip_ws s) as [|c1 r1] eqn:Hsk; [done|].
    destruct (c1 =? 93); [done|].
    intros [Ha|([vs r'] & _ & [=])]%obind_Raise. revert Ha. apply IHa. simpl in *. lia.
  - intros s Hf. simpl.
    intros [Hv|([v r1] & Hv%Cv & Hk)]%obind_Raise.
    { revert Hv. apply IHv. lia. }
    simpl in Hk.
    pose proof (skip_ws_length r1) as Hws.
    destruct (skip_ws r1) as [|c r2]; [done|]. simpl in Hws.
    destruct (c =? 93); [done|].
    destruct (c =? 44); [|done].
    apply obind_Raise in Hk as [Ha|([vs' r3] & _ & [=])].
    revert Ha. apply IHa. pose proof (skip_ws_length r2). lia.
  - intros s Hf. simpl.
    intros [Hs%scanstring_error|([k r1] & Hs%scanstring_length & Hk)]%obind_Raise; [done|].
    simpl in Hk.
    pose proof (skip_ws_length r1) as Hws.
    destruct (skip_ws r1) as [|colon r2]; [done|]. simpl in Hws.
    destruct (colon =? 58); [|done].
    pose proof (skip_ws_length r2) as Hws2.
    apply obind_Raise in Hk as [Hv|([v r3] & Hv%Cv & Hk)].
    { revert Hv. apply IHv. lia. }
    simpl in Hk.
    pose proof (skip_ws_length r3) as Hws3.
    destruct (skip_ws r3) as [|c r4]; [done|]. simpl in Hws3.
    destruct (c =? 125); [done|].
    destruct (c =? 44); [|done].
    pose proof (skip_ws_length r4) as Hws4.
    destruct (skip_ws r4) as [|q r5]; [done|]. simpl in Hws4.
    destruct (q =? 34); [|done].
    apply obind_Raise in Hk as [Ho|([ps' r6] & _ & [=])].
    revert Ho. apply IHo. lia.
Qed.

(** The decoder raises nothing but syntax errors and the exhaustion of
    its fuel. *)
Lemma decoder_errors fuel :
  (forall s e, scan_once fuel s = Raise e -> e = JSONDecodeError \/ e = RecursionError)
  /\ (forall s e, array_values fuel s = Raise e -> e = JSONDecodeError \/ e = RecursionError)
  /\ (forall s e, object_pairs fuel s = Raise e -> e = JSONDecodeError \/ e = RecursionError).
Proof.
  induction fuel as [|fuel (IHv & IHa & IHo)];
    [repeat split; intros s e [= <-]; by right|].
  split; [|split].
  - intros [|c s] e; [intros [= <-]; by left|]. simpl.
    destruct (c =? 34).
    { intros [Hs%scanstring_error|([k r'] & _ & [=])]%obind_Raise. by left. }
    destruct (c =? 123).
    { destruct (skip_ws s) as [|c1 r1]; [intros [= <-]; by left|].
      destruct (c1 =? 125); [done|].
      destruct (c1 =? 34); [|intros [= <-]; by left].
      intros [Ho|([ps r'] & _ & [=])]%obind_Raise. by eapply IHo. }
    destruct (c =? 91); [|intros Hsc%scan_scalar_error; by left].
    destruct (skip_ws s) as [|c1 r1]; [intros [= <-]; by left|].
    destruct (c1 =? 93); [done|].
    intros [Ha|([vs r'] & _ & [=])]%obind_Raise. by eapply IHa.
  - intros s e. simpl.
    intros [Hv|([v r1] & _ & Hk)]%obind_Raise; [by eapply IHv|].
    simpl in Hk.
    destruct (skip_ws r1) as [|c r2]; [injection Hk as <-; by left|].
    destruct (c =? 93); [done|].
    destruct (c =? 44); [|injection Hk as <-; by left].
    apply obind_Raise in Hk as [Ha|([vs' r3] & _ & [=])]. by eapply IHa.
  - intros s e. simpl.
    intros [Hs%scanstring_error|([k r1] & _ & Hk)]%obind_Raise; [by left|].
    simpl in Hk.
    destruct (skip_ws r1) as [|colon r2]; [injection Hk as <-; by left|].
    destruct (colon =? 58); [|injection Hk as <-; by left].
    apply obind_Raise in Hk as [Hv|([v r3] & _ & Hk)]; [by eapply IHv|].
    simpl in Hk.
    destruct (skip_ws r3) as [|c r4]; [injection Hk as <-; by left|].
    destruct (c =? 125); [done|].
    destruct (c =? 44); [|injection Hk as <-; by left].
    destruct (skip_ws r4) as [|q r5]; [injection Hk as <-; by left|].
    destruct (q =? 34); [|injection Hk as <-; by left].
    apply obind_Raise in Hk as [Ho|([ps' r6] & _ & [=])]. by eapply IHo.
Qed.

(** [json_loads] never runs out of fuel: whatever it raises is a
    [JSONDecodeError]. *)
Lemma json_loads_error s e : json_loads s = Raise e -> e = JSONDecodeError.
Proof.
  unfold json_loads.
  intros [Hv|([v r] & _ & Hk)]%obind_Raise.
  - destruct (proj1 (decoder_errors _) _ _ Hv) as [->| ->]; [done|].
    exfalso. revert Hv. apply (proj1 (decoder_fuel _)).
    pose proof (skip_ws_length s). lia.
  - simpl in Hk. destruct (skip_ws r); [done|]. by injection Hk as <-.
Qed.

End Decoder.

(** ** C5 *)

(** C5: in a configured, flag-enabled call with a non-empty content list,
    an exception of the remote call (of any class), a text accessor that
    raises, an empty text, and a cleaned text that [json.loads] rejects
    all end in [{is_spam: False, reason: "Analysis failed"}]; the value is
    returned, the exception does not leave the operation.  (Stripping the
    fences is a total function and cannot raise.) *)
Theorem analyze_message_fail_open w self message image_bytes model st :
  filter_model self = Some model ->
  ENABLE_AI_FILTER (config w) = true ->
  build_content w message image_bytes <> [] ->
  ((exists e, generate_content_async w model (filter_request w message image_bytes) = Raise e)
   \/ exists response,
       generate_content_async w model (filter_request w message image_bytes) = Return response
       /\ candidates response <> []
       /\ (text response = None
           \/ text response = Some []
           \/ exists t e, text response = Some t /\ json_loads (clean_text t) = Raise e)) ->
  analyze_message w self message image_bytes st
  = (Return (verdict false (u "Analysis failed")),
     logged st model (filter_request w message image_bytes)).
Proof.
  intros Hm Hflag Hc Hfail.
  rewrite (analyze_message_sends _ _ _ _ _ Hm Hflag Hc).
  destruct Hfail as [[e ->]|(response & -> & Hcand & Htext)]; [done|].
  destruct (candidates response); [done|].
  destruct Htext as [->|[->|(t & e & -> & Hj)]]; [done|done|].
  destruct t; [done|]. by rewrite Hj.
Qed.

Lemma analyze_message_fail_open_witness :
  analyze_message (world cfg_on (Return textless_reply)) (GeminiService_init cfg_on)
                  (msg "some text") None st0
  = (Return (verdict false (u "Analysis failed")),
     logged st0 {| model_name := u "gemini-2.5-flash" |}
            (filter_request (world cfg_on (Return textless_reply)) (msg "some text") None)).
Proof.
  apply analyze_message_fail_open.
  - reflexivity.
  - reflexivity.
  - discriminate.
  - right. exists textless_reply. split; [reflexivity|]. split; [discriminate|].
    left. reflexivity.
Defined.

(** ** C3 *)




(** ** The shuffle *)

Section Shuffle.

Lemma swap_Permutation (x : list pyval) i j : swap x i j ≡ₚ x.
Proof.
  unfold swap.
  destruct (x !! j) as [xj|] eqn:Hj; [|done].
  destruct (x !! i) as [xi|] eqn:Hi; [|done].
  by apply Permutation_insert_swap.
Qed.

(** The shuffle always returns, takes draws only, and yields a
    permutation of its argument. *)
Lemma shuffle_down_spec n (x : list pyval) st :
  exists x' ds,
    shuffle_down n x st = (Return x', {| calls := calls st; draws := ds |})
    /\ x' ≡ₚ x.
Proof.
  revert x st. induction n as [|n IH]; intros x st.
  - exists x, (draws st). by destruct st.
  - change (shuffle_down (S n) x st) with
      (bind (randbelow (S (S n))) (fun j => shuffle_down n (swap x (S n) j)) st).
    unfold bind, randbelow.
    destruct (draws st) as [|r rest] eqn:Hd.
    + destruct (IH (swap x (S n) O) st) as (x' & ds & -> & Hp).
      exists x', ds. split; [done|]. by rewrite Hp, swap_Permutation.
    + destruct (IH (swap x (S n) (r mod S (S n))%nat)
                   {| calls := calls st; draws := rest |}) as (x' & ds & -> & Hp).
      exists x', ds. split; [done|]. by rewrite Hp, swap_Permutation.
Qed.

Lemma shuffle_spec (x : list pyval) st :
  exists x' ds,
    shuffle x st = (Return x', {| calls := calls st; draws := ds |})
    /\ x' ≡ₚ x.
Proof. apply shuffle_down_spec. Qed.

End Shuffle.

(** ** The generators past their guard *)

Lemma generate_unblock_question_sends w self model st :
  verification_model self = Some model ->
  generate_unblock_question w self st =
  (match generate_content_async w model unblock_request with
   | Raise _ => Return unblock_fallback
   | Return response =>
     match text response with
     | None => Return unblock_fallback
     | Some t =>
       match json_loads t with
       | Return v => Return v
       | Raise _ => Return unblock_fallback
       end
     end
   end, logged st model unblock_request).
Proof.
  intros Hm. unfold generate_unblock_question, unblock_request. rewrite Hm.
  unfold try_except_Exception, generate_content, logged.
  destruct (generate_content_async w model _) as [response|e]; [|done].
  unfold bind, get_text, lift, print, ret, raise.
  destruct (text response) as [t|]; [|done].
  by destruct (json_loads t).
Qed.

Lemma generate_verification_challenge_sends w self model st :
  verification_model self = Some model ->
  generate_verification_challenge w self st =
  match generate_content_async w model challenge_request with
  | Raise _ => (Return challenge_fallback, logged st model challenge_request)
  | Return response =>
    match text response with
    | None => (Raise ValueError, logged st model challenge_request)
    | Some _ =>
      match challenge_try_body response (logged st model challenge_request) with
      | (Return v, st') => (Return v, st')
      | (Raise _, st') => (Return challenge_fallback, st')
      end
    end
  end.
Proof.
  intros Hm. unfold generate_verification_challenge, challenge_request. rewrite Hm.
  unfold try_except_Exception, generate_content, logged.
  destruct (generate_content_async w model _) as [response|e]; [|done].
  destruct (text response) as [t|] eqn:Ht.
  - destruct (challenge_try_body response _) as [[v|e] st']; [done|].
    unfold challenge_except, hasattr_text, get_text. by rewrite Ht.
  - unfold challenge_try_body, challenge_except, hasattr_text, get_text.
    by rewrite Ht.
Qed.

Lemma challenge_try_body_returns response t data q ca ia st :
  text response = Some t ->
  t <> [] ->
  json_loads (clean_text t) = Return data ->
  getitem data (u "question") = Return q ->
  getitem data (u "correct_answer") = Return ca ->
  getitem data (u "incorrect_answers") = Return (PList ia) ->
  exists opts ds,
    challenge_try_body response st
    = (Return (challenge q ca opts), {| calls := calls st; draws := ds |})
    /\ opts ≡ₚ ia ++ [ca].
Proof.
  intros Ht Hne Hj Hq Hca Hia.
  unfold challenge_try_body, get_text. rewrite Ht.
  destruct t as [|c t]; [done|].
  unfold bind, lift, ret. rewrite Hj, Hca, Hia. unfold add_list.
  destruct (shuffle_spec (ia ++ [ca]) st) as (opts & ds & -> & Hp).
  rewrite Hq. by exists opts, ds.
Qed.

Lemma challenge_try_body_raises response t st :
  text response = Some t ->
  rejected t ->
  exists e ds,
    challenge_try_body response st = (Raise e, {| calls := calls st; draws := ds |}).
Proof.
  intros Ht Hrej.
  unfold challenge_try_body, get_text. rewrite Ht.
  destruct Hrej as [->|e Hj|data e Hj Hca|data e Hj Hia|data x Hj Hia Hx|data e Hj Hq].
  - exists ValueError, (draws st). by destruct st.
  - destruct t as [|c t]; [exists ValueError, (draws st); by destruct st|].
    unfold bind, lift, ret. rewrite Hj. exists e, (draws st). by destruct st.
  - destruct t as [|c t]; [exists ValueError, (draws st); by destruct st|].
    unfold bind, lift, ret. rewrite Hj, Hca. exists e, (draws st). by destruct st.
  - destruct t as [|c t]; [exists ValueError, (draws st); by destruct st|].
    unfold bind, lift, ret. rewrite Hj, Hia.
    destruct (getitem data (u "correct_answer"));
      [exists e, (draws st)|eexists _, (draws st)]; by destruct st.
  - destruct t as [|c t]; [exists ValueError, (draws st); by destruct st|].
    unfold bind, lift, ret. rewrite Hj, Hia.
    destruct (getitem data (u "correct_answer"));
      [|eexists _, (draws st); by destruct st].
    unfold add_list. destruct x; try (exists TypeError, (draws st); by destruct st).
    by destruct (Hx l).
  - destruct t as [|c t]; [exists ValueError, (draws st); by destruct st|].
    unfold bind, lift, ret. rewrite Hj.
    destruct (getitem data (u "correct_answer")) as [ca|];
      [|eexists _, (draws st); by destruct st].
    destruct (getitem data (u "incorrect_answers")) as [ia|];
      [|eexists _, (draws st); by destruct st].
    destruct (add_list ia [ca]) as [opts|];
      [|eexists _, (draws st); by destruct st].
    destruct (shuffle_spec opts st) as (opts' & ds & -> & _).
    rewrite Hq. by exists e, ds.
Qed.

(** The [try] block never touches the log of remote calls. *)
Lemma challenge_try_body_calls response st :
  calls (snd (challenge_try_body response st)) = calls st.
Proof.
  unfold challenge_try_body, get_text.
  destruct (text response) as [[|c t]|]; [done| |done].
  unfold bind, lift, ret.
  destruct (json_loads _) as [data|]; [|done].
  destruct (getitem data (u "correct_answer")) as [ca|]; [|done].
  destruct (getitem data (u "incorrect_answers")) as [ia|]; [|done].
  destruct (add_list ia [ca]) as [opts|]; [|done].
  destruct (shuffle_spec opts st) as (opts' & ds & -> & _).
  by destruct (getitem data (u "question")).
Qed.

(** ** C6 *)

(** C6: when the reply parses to an object with the keys [question],
    [correct_answer] and a three-element list [incorrect_answers], the
    operation returns the parsed question and correct answer together with
    [options], a list of four entries that is a permutation of the three
    incorrect answers followed by the correct one, whatever the random
    draws; the correct answer is one of the options. *)
Theorem generate_verification_challenge_options
    w self model response t d q ca a b c st :
  verification_model self = Some model ->
  generate_content_async w model challenge_request = Return response ->
  text response = Some t ->
  t <> [] ->
  json_loads (clean_text t) = Return (PDict d) ->
  dict_get d (u "question") = Some q ->
  dict_get d (u "correct_answer") = Some ca ->
  dict_get d (u "incorrect_answers") = Some (PList [a; b; c]) ->
  exists options,
    fst (generate_verification_challenge w self st)
    = Return (PDict [(u "question", q);
                     (u "correct_answer", ca);
                     (u "options", PList options)])
    /\ options ≡ₚ [a; b; c; ca]
    /\ length options = 4%nat
    /\ ca ∈ options.
Proof.
  intros Hm Hr Ht Hne Hj Hq Hca Hia.
  rewrite (generate_verification_challenge_sends _ _ _ _ Hm), Hr, Ht.
  destruct (challenge_try_body_returns response t (PDict d) q ca [a; b; c]
              (logged st model challenge_request)) as (opts & ds & -> & Hp);
    try done; try (simpl; by rewrite ?Hq, ?Hca, ?Hia).
  exists opts. split; [done|]. split; [done|]. split.
  - by rewrite Hp.
  - rewrite Hp. do 3 constructor 2. constructor 1.
Qed.

Lemma generate_verification_challenge_options_witness :
  exists options,
    fst (generate_verification_challenge (world cfg_on (Return (reply quiz_reply)))
           (GeminiService_init cfg_on) {| calls := []; draws := [2; 0; 1]%nat |})
    = Return (PDict [(u "question", PStr (u "Q"));
                     (u "correct_answer", PStr (u "A"));
                     (u "options", PList options)])
    /\ options ≡ₚ [PStr (u "B"); PStr (u "C"); PStr (u "D"); PStr (u "A")]
    /\ length options = 4%nat
    /\ PStr (u "A") ∈ options.
Proof.
  apply (generate_verification_challenge_options _ _
           {| model_name := u "gemini-2.5-flash-lite" |} (reply quiz_reply) quiz_reply
           [(u "question", PStr (u "Q")); (u "correct_answer", PStr (u "A"));
            (u "incorrect_answers", PList [PStr (u "B"); PStr (u "C"); PStr (u "D")])]).
  - reflexivity.
  - reflexivity.
  - reflexivity.
  - discriminate.
  - vm_compute. reflexivity.
  - vm_compute. reflexivity.
  - vm_compute. reflexivity.
  - vm_compute. reflexivity.
Defined.

(** ** C2 *)

(** C2, as stated, fails: a reply whose [incorrect_answers] has two
    entries is not answered by the fallback but by a challenge with three
    options. *)
Lemma generate_verification_challenge_short_list :
  fst (generate_verification_challenge (world cfg_on (Return (reply short_quiz_reply)))
         (GeminiService_init cfg_on) st0)
  = Return (PDict [(u "question", PStr (u "Q"));
                   (u "correct_answer", PStr (u "A"));
                   (u "options", PList [PStr (u "C"); PStr (u "A"); PStr (u "B")])])
  /\ fst (generate_verification_challenge (world cfg_on (Return (reply short_quiz_reply)))
            (GeminiService_init cfg_on) st0)
     <> Return challenge_fallback.
Proof. split; [vm_compute; reflexivity|vm_compute; discriminate]. Qed.

(** C2, amended: when the text accessor of the reply returns, every
    exception of the [try] block gives exactly the fixed fallback
    [{question: "1 + 1 = ?", correct_answer: "2", options: ["1","2","3","4"]}]:
    a remote call that raises, an empty text, a text [json.loads] rejects,
    a parsed value that is not an object or lacks one of the three keys,
    an [incorrect_answers] that is not a list.  The length of the list is
    not checked: with a list of [n] entries the operation returns the
    parsed question and answer with [n + 1] options. *)
Theorem generate_verification_challenge_fallback w self model st :
  verification_model self = Some model ->
  (forall e,
      generate_content_async w model challenge_request = Raise e ->
      fst (generate_verification_challenge w self st) = Return challenge_fallback)
  /\ (forall response t,
         generate_content_async w model challenge_request = Return response ->
         text response = Some t ->
         rejected t ->
         fst (generate_verification_challenge w self st) = Return challenge_fallback)
  /\ (forall response t data q ca ia,
         generate_content_async w model challenge_request = Return response ->
         text response = Some t ->
         t <> [] ->
         json_loads (clean_text t) = Return data ->
         getitem data (u "question") = Return q ->
         getitem data (u "correct_answer") = Return ca ->
         getitem data (u "incorrect_answers") = Return (PList ia) ->
         exists options,
           fst (generate_verification_challenge w self st)
           = Return (challenge q ca options)
           /\ length options = S (length ia)).
Proof.
  intros Hm. split; [|split].
  - intros e Hr. by rewrite (generate_verification_challenge_sends _ _ _ _ Hm), Hr.
  - intros response t Hr Ht Hrej.
    rewrite (generate_verification_challenge_sends _ _ _ _ Hm), Hr, Ht.
    by destruct (challenge_try_body_raises response t
                   (logged st model challenge_request) Ht Hrej) as (e & ds & ->).
  - intros response t data q ca ia Hr Ht Hne Hj Hq Hca Hia.
    rewrite (generate_verification_challenge_sends _ _ _ _ Hm), Hr, Ht.
    destruct (challenge_try_body_returns response t data q ca ia
                (logged st model challenge_request) Ht Hne Hj Hq Hca Hia)
      as (opts & ds & -> & Hp).
    exists opts. split; [done|].
    rewrite Hp, length_app. simpl. lia.
Qed.

Lemma generate_verification_challenge_fallback_witness :
  fst (generate_verification_challenge
         (world cfg_on (Return (reply (u "{not json"))))
         (GeminiService_init cfg_on) st0)
  = Return challenge_fallback.
Proof.
  apply (proj1 (proj2 (generate_verification_challenge_fallback
                         (world cfg_on (Return (reply (u "{not json"))))
                         (GeminiService_init cfg_on)
                         {| model_name := u "gemini-2.5-flash-lite" |} st0 eq_refl))
               (reply (u "{not json")) (u "{not json") eq_refl eq_refl).
  apply (rejected_json _ JSONDecodeError). vm_compute. reflexivity.
Defined.

(** ** C9 *)

Lemma json_loads_backtick s : json_loads (96 :: s) = Raise JSONDecodeError.
Proof.
  unfold json_loads.
  change (2 * length (96%N :: s) + 2)%nat with (S (length s + S (length s + 0) + 2)).
  reflexivity.
Qed.

(** C9: [generate_unblock_question] gives the reply text to [json.loads]
    as it is: a text that starts with a code fence is rejected, so that a
    fenced reply ends in the fallback.  Without a model handle, when the
    remote call raises, when the text accessor raises, and when
    [json.loads] raises, the result is the one fixed pair (the question
    [中国的首都是哪里？] with the answer [北京]); when the text is valid JSON
    the parsed value is returned as it is. *)
Theorem generate_unblock_question_spec w self st :
  (verification_model self = None ->
   generate_unblock_question w self st = (Return unblock_fallback, st))
  /\ (forall model,
         verification_model self = Some model ->
         snd (generate_unblock_question w self st) = logged st model unblock_request
         /\ (forall e,
                generate_content_async w model unblock_request = Raise e ->
                fst (generate_unblock_question w self st) = Return unblock_fallback)
         /\ (forall response,
                generate_content_async w model unblock_request = Return response ->
                (text response = None ->
                 fst (generate_unblock_question w self st) = Return unblock_fallback)
                /\ (forall t e,
                       text response = Some t -> json_loads t = Raise e ->
                       fst (generate_unblock_question w self st) = Return unblock_fallback)
                /\ (forall s,
                       text response = Some (fence ++ s) ->
                       fst (generate_unblock_question w self st) = Return unblock_fallback)
                /\ (forall t v,
                       text response = Some t -> json_loads t = Return v ->
                       fst (generate_unblock_question w self st) = Return v))).
Proof.
  split.
  - intros Hm. unfold generate_unblock_question. by rewrite Hm.
  - intros model Hm. rewrite (generate_unblock_question_sends _ _ _ _ Hm).
    split; [done|]. split.
    + by intros e ->.
    + intros response ->. simpl. repeat split.
      * by intros ->.
      * by intros t e -> ->.
      * intros s ->. by rewrite json_loads_backtick.
      * by intros t v -> ->.
Qed.

Lemma generate_unblock_question_spec_witness :
  generate_unblock_question (world cfg_no_key (Return (reply spam_json)))
                            (GeminiService_init cfg_no_key) st0
  = (Return (PDict [(u "question", PStr (u "中国的首都是哪里？"));
                    (u "answer", PStr (u "北京"))]), st0)
  /\ fst (generate_unblock_question (world cfg_on (Return (reply fenced_spam_reply)))
                                    (GeminiService_init cfg_on) st0)
     = Return unblock_fallback
  /\ fst (generate_unblock_question (world cfg_on (Return (reply spam_json)))
                                    (GeminiService_init cfg_on) st0)
     = Return (verdict true (u "辱骂")).
Proof.
  split; [|split].
  - apply (proj1 (generate_unblock_question_spec _ _ _)). reflexivity.
  - destruct (generate_unblock_question_spec
                (world cfg_on (Return (reply fenced_spam_reply)))
                (GeminiService_init cfg_on) st0) as [_ H].
    destruct (H {| model_name := u "gemini-2.5-flash-lite" |} eq_refl) as (_ & _ & Hr).
    destruct (Hr (reply fenced_spam_reply) eq_refl) as (_ & _ & Hfenced & _).
    apply (Hfenced (u "json" ++ (nl ++ spam_json ++ nl) ++ fence)). reflexivity.
  - destruct (generate_unblock_question_spec
                (world cfg_on (Return (reply spam_json)))
                (GeminiService_init cfg_on) st0) as [_ H].
    destruct (H {| model_name := u "gemini-2.5-flash-lite" |} eq_refl) as (_ & _ & Hr).
    destruct (Hr (reply spam_json) eq_refl) as (_ & _ & _ & Hparsed).
    apply (Hparsed spam_json); [reflexivity|vm_compute; reflexivity].
Defined.

(** ** C10 *)



(** ** C1 *)





(** * Further properties *)

(** ** The pattern and a fence anywhere *)

Section MoreFences.

Implicit Types s a b : pystr.

Lemma re_sub_from_skip a b : re_sub_from (length a) (a ++ b) = re_sub_from O b.
Proof. induction a as [|c a IH]; simpl; [by destruct b|done]. Qed.

Lemma lstrip_app_fence_tail a b : lstrip (a ++ fence ++ b) = lstrip a ++ fence ++ b.
Proof. induction a as [|c a IH]; simpl; [done|]. by destruct (isspace c). Qed.

Lemma match_at_other c s :
  (96 =? c) = false ->
  match_at (c :: s) =
    if starts_with fence (lstrip (c :: s))
    then Some (ws_run (c :: s) + length fence)%nat else None.
Proof.
  intros Hc. unfold match_at.
  change fence_json with (96 :: (96 :: 96 :: u "json")).
  by rewrite (starts_with_other_head _ _ _ Hc), drop_ws_run.
Qed.

Lemma match_at_before_fence_tail c a b :
  96 ∉ c :: a ->
  match_at ((c :: a) ++ fence ++ b) =
    if forallb isspace (c :: a) then Some (length (c :: a) + length fence)%nat
    else None.
Proof.
  intros Ha.
  assert (Hc : (96 =? c) = false).
  { apply N.eqb_neq. intros <-. apply Ha. by left. }
  change ((c :: a) ++ fence ++ b) with (c :: (a ++ fence ++ b)).
  rewrite (match_at_other _ _ Hc).
  change (c :: (a ++ fence ++ b)) with ((c :: a) ++ fence ++ b).
  rewrite lstrip_app_fence_tail.
  destruct (forallb isspace (c :: a)) eqn:Hall.
  - rewrite (ws_run_all _ _ Hall).
    apply lstrip_nil_iff in Hall as ->. simpl. by rewrite Nat.add_0_r.
  - destruct (lstrip_head (c :: a)) as [Hnil|(d & r & Hd & Hsp)].
    + apply lstrip_nil_iff in Hnil. congruence.
    + assert (Hd96 : (96 =? d) = false).
      { apply N.eqb_neq. intros <-.
        apply (lstrip_no_backtick _ Ha). rewrite Hd. by left. }
      rewrite Hd.
      change (starts_with fence ((d :: r) ++ fence ++ b))
        with (starts_with (96 :: [96; 96]) (d :: (r ++ fence ++ b))).
      by rewrite (starts_with_other_head _ _ _ Hd96).
Qed.

Lemma rstrip_cons c a :
  forallb isspace (c :: a) = false -> rstrip (c :: a) = c :: rstrip a.
Proof.
  intros Hall. simpl. destruct (rstrip a) as [|d r'] eqn:Hr; [|done].
  apply rstrip_nil_iff in Hr. simpl in Hall. rewrite Hr, andb_true_r in Hall.
  by rewrite Hall.
Qed.

Lemma re_sub_fence_head b :
  starts_with (u "json") b = false -> re_sub_from O (fence ++ b) = re_sub_from O b.
Proof.
  intros Hj.
  change (re_sub_from O (fence ++ b)) with
    (match match_at (fence ++ b) with
     | Some (S k) => re_sub_from k (96 :: 96 :: b)
     | _ => 96 :: re_sub_from O (96 :: 96 :: b)
     end).
  unfold match_at.
  change (starts_with fence_json (fence ++ b)) with (starts_with (u "json") b).
  rewrite Hj. reflexivity.
Qed.

(** A closing fence anywhere in the text is deleted together with the
    whitespace before it, whatever follows. *)
Lemma re_sub_fence_anywhere a b :
  96 ∉ a ->
  starts_with (u "json") b = false \/ rstrip a <> a ->
  re_sub_fences (a ++ fence ++ b) = rstrip a ++ re_sub_fences b.
Proof.
  unfold re_sub_fences.
  induction a as [|c a IH]; intros Ha Hcase.
  - destruct Hcase as [Hj|Hne]; [|done]. by apply re_sub_fence_head.
  - assert (Ha' : 96 ∉ a) by (intros ?; apply Ha; by right).
    change (re_sub_from O ((c :: a) ++ fence ++ b)) with
      (match match_at ((c :: a) ++ fence ++ b) with
       | Some (S k) => re_sub_from k (a ++ fence ++ b)
       | _ => c :: re_sub_from O (a ++ fence ++ b)
       end).
    rewrite (match_at_before_fence_tail _ _ _ Ha).
    destruct (forallb isspace (c :: a)) eqn:Hall.
    + pose proof Hall as Hr. apply rstrip_nil_iff in Hr as ->.
      change (length (c :: a) + length fence)%nat with (S (length a + 3)).
      cbv iota. rewrite app_assoc.
      replace (length a + 3)%nat with (length (a ++ fence))
        by (rewrite length_app; reflexivity).
      apply re_sub_from_skip.
    + rewrite (rstrip_cons _ _ Hall). simpl. f_equal. apply IH; [done|].
      destruct Hcase as [Hj|Hne]; [by left|right].
      rewrite (rstrip_cons _ _ Hall) in Hne. congruence.
Qed.

Lemma re_sub_no_backtick s : 96 ∉ s -> re_sub_fences s = s.
Proof.
  unfold re_sub_fences. induction s as [|c s IH]; intros Hs; [done|].
  assert (Hs' : 96 ∉ s) by (intros ?; apply Hs; by right).
  assert (Hc : (96 =? c) = false).
  { apply N.eqb_neq. intros <-. apply Hs. by left. }
  change (re_sub_from O (c :: s)) with
    (match match_at (c :: s) with
     | Some (S k) => re_sub_from k s
     | _ => c :: re_sub_from O s
     end).
  rewrite (match_at_other _ _ Hc).
  destruct (lstrip_head (c :: s)) as [->|(d & r & Hd & Hsp)].
  - simpl. by rewrite IH.
  - assert (Hd96 : (96 =? d) = false).
    { apply N.eqb_neq. intros <-.
      apply (lstrip_no_backtick _ Hs). rewrite Hd. by left. }
    rewrite Hd.
    change (starts_with fence (d :: r)) with (starts_with (96 :: [96; 96]) (d :: r)).
    rewrite (starts_with_other_head _ _ _ Hd96). by rewrite IH.
Qed.

End MoreFences.

(** ** Further properties of the cleaning step *)

Lemma json_loads_letter_j s : json_loads (106 :: s) = Raise JSONDecodeError.
Proof.
  unfold json_loads.
  change (2 * length (106%N :: s) + 2)%nat with (S (length s + S (length s + 0) + 2)).
  reflexivity.
Qed.

Lemma json_loads_nil : json_loads [] = Raise JSONDecodeError.
Proof. reflexivity. Qed.

Lemma not_elem_of_app_backtick (a b : pystr) : 96 ∉ a -> 96 ∉ b -> 96 ∉ a ++ b.
Proof. intros Ha Hb [H|H]%elem_of_app; [by apply Ha|by apply Hb]. Qed.

Lemma clean_text_plain (t : pystr) : 96 ∉ t -> clean_text t = strip t.
Proof. intros Ht. unfold clean_text. by rewrite re_sub_no_backtick. Qed.

(** X5: a text without any backtick is only stripped by the cleaning step
    of [analyze_message] and [generate_verification_challenge]. *)
Theorem clean_text_without_backtick (t : pystr) :
  96 ∉ t -> clean_text t = strip t.
Proof. intros Ht. unfold clean_text. by rewrite re_sub_no_backtick. Qed.

Lemma clean_text_without_backtick_witness :
  clean_text ([160; 10] ++ spam_json ++ [32; 12288]) = spam_json.
Proof.
  rewrite clean_text_without_backtick.
  - reflexivity.
  - apply (bool_decide_unpack _). vm_compute. exact I.
Defined.

(** X6: the cleaning step deletes a triple backtick wherever it stands,
    with the whitespace before it: also inside the text of a JSON string.
    (The backticks are followed by something other than [json], or
    preceded by whitespace.) *)
Theorem clean_text_inner_fence (a b : pystr) :
  96 ∉ a -> 96 ∉ b ->
  starts_with (u "json") b = false \/ rstrip a <> a ->
  clean_text (a ++ fence ++ b) = strip (rstrip a ++ b).
Proof.
  intros Ha Hb Hcase. unfold clean_text.
  by rewrite (re_sub_fence_anywhere _ _ Ha Hcase), (re_sub_no_backtick _ Hb).
Qed.

Lemma clean_text_inner_fence_witness :
  clean_text ((u "{" ++ dq ++ u "reason" ++ dq ++ u ": " ++ dq ++ u "use ")
                ++ fence ++ (u " here" ++ dq ++ u "}"))
  = u "{" ++ dq ++ u "reason" ++ dq ++ u ": " ++ dq ++ u "use here" ++ dq ++ u "}".
Proof.
  rewrite clean_text_inner_fence.
  - reflexivity.
  - apply (bool_decide_unpack _). vm_compute. exact I.
  - apply (bool_decide_unpack _). vm_compute. exact I.
  - left. reflexivity.
Defined.

(** X7: whitespace before the opening fence defeats the cleaning: the
    second alternative of the pattern takes the whitespace and the three
    backticks, the word [json] stays, [json.loads] rejects the text and
    [analyze_message] answers [Analysis failed]. *)
Theorem analyze_message_space_before_fence
    w self message image_bytes model response ws body st :
  filter_model self = Some model ->
  ENABLE_AI_FILTER (config w) = true ->
  build_content w message image_bytes <> [] ->
  generate_content_async w model (filter_request w message image_bytes) = Return response ->
  candidates response <> [] ->
  text response = Some (ws ++ fence_json ++ body ++ fence) ->
  ws <> [] ->
  forallb isspace ws = true ->
  96 ∉ body ->
  clean_text (ws ++ fence_json ++ body ++ fence) = rstrip (u "json" ++ body)
  /\ analyze_message w self message image_bytes st
     = (Return verdict_failed, logged st model (filter_request w message image_bytes)).
Proof.
  intros Hm Hflag Hc Hr Hcand Ht Hne Hws Hbody.
  assert (Hclean : clean_text (ws ++ fence_json ++ body ++ fence)
                   = rstrip (u "json" ++ body)).
  { unfold clean_text, fence_json. rewrite <- (app_assoc fence).
    rewrite re_sub_fence_anywhere.
    - rewrite (proj2 (rstrip_nil_iff ws) Hws), app_nil_l.
      unfold re_sub_fences. rewrite (app_assoc (u "json") body fence).
      rewrite re_sub_before_fence
        by (apply not_elem_of_app_backtick; [|done];
            apply (bool_decide_unpack _); vm_compute; exact I).
      unfold strip.
      change (u "json" ++ body) with (106 :: (u "son" ++ body)).
      by rewrite lstrip_rstrip_head, rstrip_idemp.
    - intros Hin. apply list_elem_of_In, (proj1 (forallb_forall _ _) Hws) in Hin.
      discriminate.
    - right. apply rstrip_nil_iff in Hws as ->. by destruct ws. }
  split; [done|].
  rewrite (analyze_message_sends _ _ _ _ _ Hm Hflag Hc), Hr, Ht.
  destruct (candidates response) as [|cand cands]; [done|].
  destruct (ws ++ fence_json ++ body ++ fence) as [|c t] eqn:Hcat.
  { by destruct ws. }
  rewrite Hclean.
  change (u "json" ++ body) with (106 :: (u "son" ++ body)).
  assert (Hj : exists r, rstrip (106 :: (u "son" ++ body)) = 106 :: r).
  { change (rstrip (106 :: (u "son" ++ body))) with
      (match rstrip (u "son" ++ body) with
       | [] => if isspace 106 then [] else [106]
       | r' => 106 :: r'
       end).
    destruct (rstrip (u "son" ++ body)); [by exists []|by eexists]. }
  destruct Hj as [r ->]. by rewrite json_loads_letter_j.
Qed.

Lemma analyze_message_space_before_fence_witness :
  clean_text (nl ++ fence_json ++ (nl ++ spam_json ++ nl) ++ fence)
  = rstrip (u "json" ++ nl ++ spam_json ++ nl)
  /\ analyze_message (world cfg_on (Return (reply (nl ++ fenced_spam_reply))))
       (GeminiService_init cfg_on) (msg "some text") None st0
     = (Return verdict_failed,
        logged st0 {| model_name := u "gemini-2.5-flash" |}
          (filter_request (world cfg_on (Return (reply (nl ++ fenced_spam_reply))))
                          (msg "some text") None)).
Proof.
  apply (analyze_message_space_before_fence _ _ _ _ _
           (reply (nl ++ fenced_spam_reply))).
  - reflexivity.
  - reflexivity.
  - discriminate.
  - reflexivity.
  - discriminate.
  - reflexivity.
  - discriminate.
  - reflexivity.
  - apply (bool_decide_unpack _). vm_compute. exact I.
Defined.

(** ** Fenced and bare replies *)

(** X8: for [analyze_message], a reply whose text is enclosed in a
    [```json] fence and a closing fence counts as the reply with the bare
    text (a text without backticks): same result, same final state. *)
Theorem analyze_message_fenced_as_bare w self message image_bytes r1 r2 b st :
  candidates r1 <> [] ->
  candidates r2 <> [] ->
  text r1 = Some (fence_json ++ b ++ fence) ->
  text r2 = Some b ->
  96 ∉ b ->
  analyze_message (answering w (Return r1)) self message image_bytes st
  = analyze_message (answering w (Return r2)) self message image_bytes st.
Proof.
  intros Hc1 Hc2 Ht1 Ht2 Hb.
  destruct (filter_model self) as [model|] eqn:Hm.
  2:{ rewrite (analyze_message_guard (answering w (Return r1))) by by left.
      by rewrite (analyze_message_guard (answering w (Return r2))) by by left. }
  destruct (ENABLE_AI_FILTER (config w)) eqn:Hflag.
  2:{ rewrite (analyze_message_guard (answering w (Return r1))) by by right.
      by rewrite (analyze_message_guard (answering w (Return r2))) by by right. }
  destruct (build_content w message image_bytes) as [|p content] eqn:Hb0.
  { unfold analyze_message. simpl. rewrite Hm, Hflag.
    change (build_content (answering w (Return r1)) message image_bytes)
      with (build_content w message image_bytes).
    change (build_content (answering w (Return r2)) message image_bytes)
      with (build_content w message image_bytes).
    by rewrite Hb0. }
  assert (Hne : forall o, build_content (answering w o) message image_bytes <> []).
  { intros o. change (build_content (answering w o) message image_bytes)
      with (build_content w message image_bytes). by rewrite Hb0. }
  rewrite (analyze_message_sends (answering w (Return r1)) _ _ _ _ Hm Hflag (Hne _)).
  rewrite (analyze_message_sends (answering w (Return r2)) _ _ _ _ Hm Hflag (Hne _)).
  change (filter_request (answering w (Return r1)) message image_bytes)
    with (filter_request w message image_bytes).
  change (filter_request (answering w (Return r2)) message image_bytes)
    with (filter_request w message image_bytes).
  cbn [generate_content_async answering]. rewrite Ht1, Ht2.
  destruct (candidates r1) as [|x1 l1]; [done|].
  destruct (candidates r2) as [|x2 l2]; [done|].
  change (fence_json ++ b ++ fence)
    with (96 :: ((96 :: 96 :: u "json") ++ b ++ fence)).
  cbv iota.
  change (96 :: ((96 :: 96 :: u "json") ++ b ++ fence)) with (fence_json ++ b ++ fence).
  rewrite (clean_text_fenced _ Hb).
  destruct b as [|c t].
  - reflexivity.
  - by rewrite (clean_text_plain _ Hb).
Qed.

Lemma analyze_message_fenced_as_bare_witness :
  analyze_message (answering (world cfg_on (Raise ValueError))
                             (Return (reply fenced_spam_reply)))
                  (GeminiService_init cfg_on) (msg "some text") None st0
  = analyze_message (answering (world cfg_on (Raise ValueError))
                               (Return (reply (nl ++ spam_json ++ nl))))
                    (GeminiService_init cfg_on) (msg "some text") None st0.
Proof.
  apply (analyze_message_fenced_as_bare _ _ _ _ _ _ (nl ++ spam_json ++ nl)).
  - discriminate.
  - discriminate.
  - reflexivity.
  - reflexivity.
  - apply (bool_decide_unpack _). vm_compute. exact I.
Defined.

(** The [try] block on a non-empty text. *)
Lemma challenge_try_body_cons response c t st :
  text response = Some (c :: t) ->
  challenge_try_body response st =
  (data <- lift (json_loads (clean_text (c :: t))) ;;
   correct_answer <- lift (getitem data (u "correct_answer")) ;;
   incorrect_answers <- lift (getitem data (u "incorrect_answers")) ;;
   options <- lift (add_list incorrect_answers [correct_answer]) ;;
   options <- shuffle options ;;
   question <- lift (getitem data (u "question")) ;;
   ret (challenge question correct_answer options))%py st.
Proof. intros H. unfold challenge_try_body, get_text. by rewrite H. Qed.

(** X9: for [generate_verification_challenge] too, a reply whose text is
    enclosed in a [```json] fence and a closing fence counts as the reply
    with the bare text (a text without backticks): same result, same
    final state. *)
Theorem challenge_fenced_as_bare w self r1 r2 b st :
  text r1 = Some (fence_json ++ b ++ fence) ->
  text r2 = Some b ->
  96 ∉ b ->
  generate_verification_challenge (answering w (Return r1)) self st
  = generate_verification_challenge (answering w (Return r2)) self st.
Proof.
  intros Ht1 Ht2 Hb.
  destruct (verification_model self) as [model|] eqn:Hm;
    [|unfold generate_verification_challenge; by rewrite Hm].
  rewrite (generate_verification_challenge_sends (answering w (Return r1)) _ _ _ Hm).
  rewrite (generate_verification_challenge_sends (answering w (Return r2)) _ _ _ Hm).
  cbn [generate_content_async answering]. rewrite Ht1, Ht2.
  set (st1 := logged st model challenge_request).
  rewrite (challenge_try_body_cons r1 96 ((96 :: 96 :: u "json") ++ b ++ fence) st1 Ht1).
  change (96 :: ((96 :: 96 :: u "json") ++ b ++ fence)) with (fence_json ++ b ++ fence).
  rewrite (clean_text_fenced _ Hb).
  destruct b as [|c t].
  - unfold challenge_try_body, get_text. rewrite Ht2. reflexivity.
  - rewrite (challenge_try_body_cons r2 c t st1 Ht2).
    by rewrite (clean_text_plain _ Hb).
Qed.

Lemma challenge_fenced_as_bare_witness :
  generate_verification_challenge
    (answering (world cfg_on (Raise ValueError))
               (Return (reply (fence_json ++ quiz_reply ++ fence))))
    (GeminiService_init cfg_on) st0
  = generate_verification_challenge
      (answering (world cfg_on (Raise ValueError)) (Return (reply quiz_reply)))
      (GeminiService_init cfg_on) st0.
Proof.
  apply (challenge_fenced_as_bare _ _ _ _ quiz_reply).
  - reflexivity.
  - reflexivity.
  - apply (bool_decide_unpack _). vm_compute. exact I.
Defined.

(** ** The challenge and the random generator *)

(** The [try] block either raises, the same exception in every state, or
    returns a challenge that differs between states only in the order of
    its options. *)
Lemma challenge_try_body_uniform response :
  (exists e, forall st, exists ds,
      challenge_try_body response st
      = (Raise e, {| calls := calls st; draws := ds |}))
  \/ (exists q ca l,
         ca ∈ l
         /\ forall st, exists opts ds,
             challenge_try_body response st
             = (Return (challenge q ca opts), {| calls := calls st; draws := ds |})
             /\ opts ≡ₚ l).
Proof.
  unfold challenge_try_body, get_text.
  destruct (text response) as [[|c t]|];
    try (left; exists ValueError; intros st; exists (draws st); by destruct st).
  unfold bind, lift, ret.
  destruct (json_loads _) as [data|e];
    [|left; exists e; intros st; exists (draws st); by destruct st].
  destruct (getitem data (u "correct_answer")) as [ca|e];
    [|left; exists e; intros st; exists (draws st); by destruct st].
  destruct (getitem data (u "incorrect_answers")) as [ia|e];
    [|left; exists e; intros st; exists (draws st); by destruct st].
  destruct (add_list ia [ca]) as [opts|e] eqn:Hadd;
    [|left; exists e; intros st; exists (draws st); by destruct st].
  destruct (getitem data (u "question")) as [q|e].
  - right. exists q, ca, opts. split.
    + destruct ia; try done. injection Hadd as <-.
      apply elem_of_app. right. constructor 1.
    + intros st. destruct (shuffle_spec opts st) as (opts' & ds & -> & Hp).
      by exists opts', ds.
  - left. exists e. intros st.
    destruct (shuffle_spec opts st) as (opts' & ds & -> & Hp). by exists ds.
Qed.

Lemma challenge_fallback_shape :
  challenge_fallback
  = challenge (PStr (u "1 + 1 = ?")) (PStr (u "2"))
              [PStr (u "1"); PStr (u "2"); PStr (u "3"); PStr (u "4")].
Proof. reflexivity. Qed.

(** X10: every value [generate_verification_challenge] returns, the
    fallback included, has the three keys and lists the correct answer
    among its options. *)
Theorem challenge_lists_correct_answer w self st v st' :
  generate_verification_challenge w self st = (Return v, st') ->
  exists q ca options,
    v = PDict [(u "question", q); (u "correct_answer", ca);
               (u "options", PList options)]
    /\ ca ∈ options.
Proof.
  assert (Hfb : exists q ca options,
             challenge_fallback
             = PDict [(u "question", q); (u "correct_answer", ca);
                      (u "options", PList options)]
             /\ ca ∈ options).
  { eexists _, _, _. split; [apply challenge_fallback_shape|].
    constructor 2. constructor 1. }
  destruct (verification_model self) as [model|] eqn:Hm.
  - rewrite (generate_verification_challenge_sends _ _ _ _ Hm).
    destruct (generate_content_async w model _) as [response|e];
      [|by intros [= <- _]].
    destruct (text response) as [t|]; [|done].
    destruct (challenge_try_body_uniform response)
      as [(e & He)|(q & ca & l & Hin & Hok)].
    + destruct (He (logged st model challenge_request)) as (ds & ->).
      by intros [= <- _].
    + destruct (Hok (logged st model challenge_request)) as (opts & ds & -> & Hp).
      intros [= <- _]. exists q, ca, opts. split; [done|]. by rewrite Hp.
  - unfold generate_verification_challenge. rewrite Hm. by intros [= <- _].
Qed.

Lemma challenge_lists_correct_answer_witness :
  exists q ca options,
    PDict [(u "question", PStr (u "Q")); (u "correct_answer", PStr (u "A"));
           (u "options", PList [PStr (u "C"); PStr (u "A"); PStr (u "B")])]
    = PDict [(u "question", q); (u "correct_answer", ca);
             (u "options", PList options)]
    /\ ca ∈ options.
Proof.
  apply (challenge_lists_correct_answer
           (world cfg_on (Return (reply short_quiz_reply)))
           (GeminiService_init cfg_on) st0 _
           (logged st0 {| model_name := u "gemini-2.5-flash-lite" |} challenge_request)).
  vm_compute. reflexivity.
Defined.

Lemma app_singleton_neq {A} (l : list A) x : l ++ [x] <> l.
Proof.
  intros H. apply (f_equal length) in H. rewrite length_app in H. simpl in H. lia.
Qed.

(** X11: the random generator matters to the order of the options only.
    From two states, [generate_verification_challenge] raises the same
    exception, or returns the same question and correct answer with
    options that are permutations of each other; [analyze_message] and
    [generate_unblock_question] give the same outcome and leave the draws
    where they were. *)
Theorem draws_only_order_options w self message image_bytes st1 st2 :
  match fst (generate_verification_challenge w self st1),
        fst (generate_verification_challenge w self st2) with
  | Return v1, Return v2 =>
    exists q ca o1 o2,
      v1 = challenge q ca o1 /\ v2 = challenge q ca o2 /\ o1 ≡ₚ o2
  | Raise e1, Raise e2 => e1 = e2
  | _, _ => False
  end
  /\ fst (analyze_message w self message image_bytes st1)
     = fst (analyze_message w self message image_bytes st2)
  /\ draws (snd (analyze_message w self message image_bytes st1)) = draws st1
  /\ fst (generate_unblock_question w self st1)
     = fst (generate_unblock_question w self st2)
  /\ draws (snd (generate_unblock_question w self st1)) = draws st1.
Proof.
  split; [|split; [|split; [|split]]].
  - assert (Hfb : exists q ca o1 o2,
               challenge_fallback = challenge q ca o1
               /\ challenge_fallback = challenge q ca o2 /\ o1 ≡ₚ o2).
    { eexists _, _, _, _. split; [apply challenge_fallback_shape|].
      split; [apply challenge_fallback_shape|done]. }
    destruct (verification_model self) as [model|] eqn:Hm.
    + rewrite !(generate_verification_challenge_sends _ _ _ _ Hm).
      destruct (generate_content_async w model _) as [response|e]; [|done].
      destruct (text response) as [t|]; [|done].
      destruct (challenge_try_body_uniform response)
        as [(e & He)|(q & ca & l & Hin & Hok)].
      * destruct (He (logged st1 model challenge_request)) as (ds1 & ->).
        by destruct (He (logged st2 model challenge_request)) as (ds2 & ->).
      * destruct (Hok (logged st1 model challenge_request)) as (o1 & ds1 & -> & Hp1).
        destruct (Hok (logged st2 model challenge_request)) as (o2 & ds2 & -> & Hp2).
        exists q, ca, o1, o2. split; [done|]. split; [done|]. by rewrite Hp1, Hp2.
    + unfold generate_verification_challenge. by rewrite Hm.
  - destruct (filter_model self) as [model|] eqn:Hm;
      [|by rewrite !analyze_message_guard by by left].
    destruct (ENABLE_AI_FILTER (config w)) eqn:Hflag;
      [|by rewrite !analyze_message_guard by by right].
    destruct (build_content w message image_bytes) as [|p content] eqn:Hb.
    { unfold analyze_message. by rewrite Hm, Hflag, Hb. }
    assert (Hc : build_content w message image_bytes <> []) by by rewrite Hb.
    rewrite !(analyze_message_sends _ _ _ _ _ Hm Hflag Hc).
    destruct (generate_content_async w model _) as [response|e]; [|done].
    destruct (candidates response) as [|cand cands]; [done|].
    destruct (text response) as [[|c t]|]; [done| |done].
    by destruct (json_loads _).
  - destruct (filter_model self) as [model|] eqn:Hm;
      [|by rewrite analyze_message_guard by by left].
    destruct (ENABLE_AI_FILTER (config w)) eqn:Hflag;
      [|by rewrite analyze_message_guard by by right].
    destruct (build_content w message image_bytes) as [|p content] eqn:Hb.
    { unfold analyze_message. by rewrite Hm, Hflag, Hb. }
    assert (Hc : build_content w message image_bytes <> []) by by rewrite Hb.
    rewrite (analyze_message_sends _ _ _ _ _ Hm Hflag Hc).
    destruct (generate_content_async w model _) as [response|e]; [|done].
    destruct (candidates response) as [|cand cands]; [done|].
    destruct (text response) as [[|c t]|]; [done| |done].
    by destruct (json_loads _).
  - destruct (verification_model self) as [model|] eqn:Hm.
    + by rewrite !(generate_unblock_question_sends _ _ _ _ Hm).
    + unfold generate_unblock_question. by rewrite Hm.
  - destruct (verification_model self) as [model|] eqn:Hm.
    + by rewrite (generate_unblock_question_sends _ _ _ _ Hm).
    + unfold generate_unblock_question. by rewrite Hm.
Qed.

(** ** Configuration, content and the log of requests *)

(** X1: without a usable credential (the key is absent or the empty
    string) the module-level service answers the three operations with
    their fixed results and sends nothing: the state is unchanged. *)
Theorem unconfigured_service_falls_back w message image_bytes st :
  truthy_str (GEMINI_API_KEY (config w)) = false ->
  analyze_message w (gemini_service w) message image_bytes st
  = (Return verdict_disabled, st)
  /\ generate_unblock_question w (gemini_service w) st
     = (Return unblock_fallback, st)
  /\ generate_verification_challenge w (gemini_service w) st
     = (Return challenge_fallback, st).
Proof.
  intros Hkey. unfold gemini_service. rewrite (init_without_key _ Hkey).
  split; [|split].
  - apply analyze_message_guard. by left.
  - reflexivity.
  - reflexivity.
Qed.

Lemma unconfigured_service_falls_back_witness :
  analyze_message (world {| GEMINI_API_KEY := Some []; ENABLE_AI_FILTER := true |}
                         (Return (reply quiz_reply)))
    (gemini_service (world {| GEMINI_API_KEY := Some []; ENABLE_AI_FILTER := true |}
                           (Return (reply quiz_reply))))
    (msg "some text") None st0
  = (Return verdict_disabled, st0)
  /\ generate_unblock_question
       (world {| GEMINI_API_KEY := Some []; ENABLE_AI_FILTER := true |}
              (Return (reply quiz_reply)))
       (gemini_service (world {| GEMINI_API_KEY := Some []; ENABLE_AI_FILTER := true |}
                              (Return (reply quiz_reply)))) st0
     = (Return unblock_fallback, st0)
  /\ generate_verification_challenge
       (world {| GEMINI_API_KEY := Some []; ENABLE_AI_FILTER := true |}
              (Return (reply quiz_reply)))
       (gemini_service (world {| GEMINI_API_KEY := Some []; ENABLE_AI_FILTER := true |}
                              (Return (reply quiz_reply)))) st0
     = (Return challenge_fallback, st0).
Proof. apply unconfigured_service_falls_back. reflexivity. Defined.

(** X2: [analyze_message] sends a request exactly when it has a filter
    model, the flag is on and the content list is not empty; it then sends
    one request, to the filter model, made of the content followed by the
    instructions, whatever the reply does. *)
Theorem analyze_message_sends_iff w self message image_bytes st :
  (calls (snd (analyze_message w self message image_bytes st)) <> calls st
   <-> is_Some (filter_model self)
       /\ ENABLE_AI_FILTER (config w) = true
       /\ build_content w message image_bytes <> [])
  /\ (forall model,
         filter_model self = Some model ->
         ENABLE_AI_FILTER (config w) = true ->
         build_content w message image_bytes <> [] ->
         snd (analyze_message w self message image_bytes st)
         = {| calls := calls st
                ++ [(model, OfList (build_content w message image_bytes
                                      ++ [PText (join nl prompt_parts)]))];
              draws := draws st |}).
Proof.
  assert (Hsent : forall model,
             filter_model self = Some model ->
             ENABLE_AI_FILTER (config w) = true ->
             build_content w message image_bytes <> [] ->
             snd (analyze_message w self message image_bytes st)
             = logged st model (filter_request w message image_bytes)).
  { intros model Hm Hflag Hc.
    rewrite (analyze_message_sends _ _ _ _ _ Hm Hflag Hc).
    destruct (generate_content_async w model _) as [response|e]; [|done].
    destruct (candidates response) as [|cand cands]; [done|].
    destruct (text response) as [[|c t]|]; [done| |done].
    by destruct (json_loads _). }
  split; [|exact Hsent].
  split.
  - intros Hcalls.
    destruct (filter_model self) as [model|] eqn:Hm;
      [|by rewrite analyze_message_guard in Hcalls by by left].
    destruct (ENABLE_AI_FILTER (config w)) eqn:Hflag;
      [|by rewrite analyze_message_guard in Hcalls by by right].
    destruct (build_content w message image_bytes) as [|p content] eqn:Hb; [|done].
    unfold analyze_message in Hcalls. by rewrite Hm, Hflag, Hb in Hcalls.
  - intros ([model Hm] & Hflag & Hc).
    rewrite (Hsent model Hm Hflag Hc). apply app_singleton_neq.
Qed.

(** X3: an image buffer that is empty or that [Image.open] rejects counts
    as no image: the call goes on as the call without image bytes does,
    and with a text it sends the text and the instructions only. *)
Theorem analyze_message_drops_bad_image w self message b st :
  b = [] \/ (exists e, Image_open w b = Raise e) ->
  analyze_message w self message (Some b) st
  = analyze_message w self message None st
  /\ (truthy_str (Message.text message) = true ->
      filter_request w message (Some b)
      = OfList [PText (default [] (Message.text message));
                PText (join nl prompt_parts)]).
Proof.
  intros Hbad.
  assert (Hb : build_content w message (Some b) = build_content w message None).
  { unfold build_content.
    destruct Hbad as [->|[e He]]; [done|].
    simpl. rewrite He. by destruct b. }
  split.
  - unfold analyze_message. by rewrite Hb.
  - intros Ht. unfold filter_request. rewrite Hb. unfold build_content.
    by rewrite Ht.
Qed.

Lemma analyze_message_drops_bad_image_witness :
  analyze_message (world cfg_on (Return (reply spam_json))) (GeminiService_init cfg_on)
                  (msg "some text") (Some [71; 73; 70]) st0
  = analyze_message (world cfg_on (Return (reply spam_json))) (GeminiService_init cfg_on)
                    (msg "some text") None st0
  /\ (truthy_str (Message.text (msg "some text")) = true ->
      filter_request (world cfg_on (Return (reply spam_json))) (msg "some text")
                     (Some [71; 73; 70])
      = OfList [PText (default [] (Message.text (msg "some text")));
                PText (join nl prompt_parts)]).
Proof.
  apply analyze_message_drops_bad_image. right. eexists. reflexivity.
Defined.

(** X4: a generator sends its fixed prompt once to the verification model
    when it has one and nothing otherwise, whatever comes back: there is
    no second attempt, also when the reply is unusable or the exception
    leaves the operation. *)
Theorem generators_send_once w self st :
  calls (snd (generate_unblock_question w self st))
  = calls st ++ match verification_model self with
                | Some model => [(model, OfStr unblock_prompt)]
                | None => []
                end
  /\ calls (snd (generate_verification_challenge w self st))
     = calls st ++ match verification_model self with
                   | Some model => [(model, OfStr challenge_prompt)]
                   | None => []
                   end.
Proof.
  destruct (verification_model self) as [model|] eqn:Hm.
  - split.
    + by rewrite (generate_unblock_question_sends _ _ _ _ Hm).
    + rewrite (generate_verification_challenge_sends _ _ _ _ Hm).
      destruct (generate_content_async w model _) as [response|e]; [|done].
      destruct (text response); [|done].
      pose proof (challenge_try_body_calls response
                    (logged st model challenge_request)) as Hc.
      by destruct (challenge_try_body response _) as [[v|e] st'].
  - unfold generate_unblock_question, generate_verification_challenge.
    rewrite Hm. simpl. by rewrite app_nil_r.
Qed.

Lemma analyze_message_sends_iff_witness :
  snd (analyze_message (world cfg_on (Raise (OtherException "DeadlineExceeded")))
                       (GeminiService_init cfg_on) (msg "some text") None st0)
  = {| calls := calls st0
         ++ [({| model_name := u "gemini-2.5-flash" |},
              OfList (build_content
                        (world cfg_on (Raise (OtherException "DeadlineExceeded")))
                        (msg "some text") None
                      ++ [PText (join nl prompt_parts)]))];
       draws := draws st0 |}.
Proof.
  apply (proj2 (analyze_message_sends_iff
                  (world cfg_on (Raise (OtherException "DeadlineExceeded")))
                  (GeminiService_init cfg_on) (msg "some text") None st0)).
  - reflexivity.
  - reflexivity.
  - discriminate.
Defined.

(** X12: [generate_verification_challenge] lets an exception leave exactly
    when it has a model, the remote call returns and the text accessor of
    the reply raises; what leaves is the [ValueError] of the accessor,
    raised again by [hasattr] in the handler. *)
Theorem challenge_escapes_iff w self st e :
  fst (generate_verification_challenge w self st) = Raise e
  <-> e = ValueError
      /\ exists model response,
          verification_model self = Some model
          /\ generate_content_async w model (OfStr challenge_prompt) = Return response
          /\ text response = None.
Proof.
  split.
  - destruct (verification_model self) as [model|] eqn:Hm;
      [|unfold generate_verification_challenge; by rewrite Hm].
    rewrite (generate_verification_challenge_sends _ _ _ _ Hm).
    destruct (generate_content_async w model challenge_request)
      as [response|e'] eqn:Hr; [|done].
    destruct (text response) as [t|] eqn:Ht.
    + by destruct (challenge_try_body response _) as [[v|e'] st'].
    + intros [= <-]. split; [done|]. by exists model, response.
  - intros (-> & model & response & Hm & Hr & Ht).
    rewrite (generate_verification_challenge_sends _ _ _ _ Hm).
    unfold challenge_request. by rewrite Hr, Ht.
Qed.

Lemma challenge_escapes_iff_witness :
  fst (generate_verification_challenge (world cfg_on (Return textless_reply))
         (GeminiService_init cfg_on) st0)
  = Raise ValueError.
Proof.
  apply (proj2 (challenge_escapes_iff (world cfg_on (Return textless_reply))
                  (GeminiService_init cfg_on) st0 ValueError)).
  split; [reflexivity|].
  exists {| model_name := u "gemini-2.5-flash-lite" |}, textless_reply.
  split; [reflexivity|]. split; reflexivity.
Defined.
